(** * The ONCE web server: reference redirects and the UDE CRUD bridge

    A shallow embedding of [src/2_systems/OnceWeberver.class.mts]: the two
    request handlers that [DefaultOnceWebserver.start] registers with the
    HTTP server, the [GET /ior*] handler and [_handleUDE_CRUD].

    The handlers are written once, as programs over the calls they make to
    their collaborators ([DefaultIOR], [UDELoader], the component and its
    persistence manager) and over the actions they perform on the [reply]
    object.  Running a program against an implementation of the
    collaborators yields the ordered log of what was called, the way the
    handler ended (a returned payload or a thrown error) and the world the
    collaborators are left in. *)

From Stdlib Require Import Ascii.
From stdpp Require Import gmap strings list.

Open Scope string_scope.
Set Warnings "-register-all".

(** ** Values *)

(** JSON values, as they arrive in [request.body] and as a component's
    model holds them. *)
Inductive json : Type :=
  | JNull
  | JBool (b : bool)
  | JNumber (n : Z)
  | JString (s : string)
  | JArray (items : list json)
  | JObject (fields : list (string * json)).

(** [obj[key]] on the fields of a JSON object: the first binding of [key]. *)
Fixpoint get_field (key : string) (fields : list (string * json)) : option json :=
  match fields with
  | [] => None
  | (k, v) :: rest => if String.eqb k key then Some v else get_field key rest
  end.

Definition json_get (key : string) (j : json) : option json :=
  match j with
  | JObject fields => get_field key fields
  | _ => None
  end.

(** The failures a request can end with, by kind.  [NotFound] and
    [MethodNotImplemented] are the two [Error]s the handlers throw
    themselves; [NotFound] is also what the resolver signals for an address
    that resolves to nothing.  The other kinds are signalled by the
    collaborators only.  No handler has a [try]: a failure of a
    collaborator passes through the handler untouched. *)
Inductive error : Type :=
  | NotFound                       (* new Error("Not Found") *)
  | MethodNotImplemented           (* new Error("Method not implemented") *)
  | MalformedReference             (* the IOR parser rejects the address *)
  | MalformedPayload               (* validateUDEStructure rejects the body *)
  | OtherFailure (message : string).

Inductive result (X : Type) : Type :=
  | Ok (x : X)
  | Err (e : error).
Arguments Ok {X} x.
Arguments Err {X} e.

(** Protocol tags of an IOR; [ude] is [urlProtocol.ude]. *)
Inductive urlProtocol : Type := ior | esm | ude | https | file.

(** A parsed reference: the protocol chain and what is left of the address
    once the tags are taken off. *)
Record IOR : Type := mkIOR {
  protocol : list urlProtocol;
  pathName : string
}.

(** [ior.protocol.push(tag)]: the tag goes to the end of the chain of the
    same reference; nothing else of the reference changes. *)
Definition protocol_push (i : IOR) (tag : urlProtocol) : IOR :=
  {| protocol := protocol i ++ [tag]; pathName := pathName i |}.

(** The UDE structure: what [validateUDEStructure] hands back for a body
    and what [persistanceManager.ucpComponentData] yields for a component. *)
Record UDEStructure : Type := mkUDE {
  typeIOR : string;
  particle_data : json;            (* udeData.particle.data *)
  id : option string;
  alias : option (list string)
}.

(** Components and component classes are objects: they are known by their
    identity. *)
Definition ref : Type := nat.
Definition Class : Type := string.

Record request : Type := mkRequest {
  method : string;
  url : string;
  headers : gmap string string;
  body : option json
}.

(** What a handler returns to the HTTP server to be serialised. *)
Inductive payload : Type :=
  | Snapshot (data : UDEStructure)        (* ...persistanceManager.ucpComponentData *)
  | DeleteOk.                             (* { delete: 'ok' } *)

(** ** Programs over the collaborators *)

(** The calls a handler makes, each with the type of what it gives back.
    A call gives its value or throws.  The handlers [await] the loads,
    [create()] and [delete()]; the parser, the validator, the setters,
    [addAlias] and the snapshot getter are called without [await], as plain
    calls.  [ior.load] is asked for a component ([as UcpComponent]) or, with
    [returnValue: loaderReturnValue.path], for a path ([urlPath: string]):
    these are two calls here, by the type the handler takes the value at. *)
Inductive call : Type :=
  | IOR_init (url : string)                    (* new DefaultIOR().init(url) *)
  | IOR_load (i : IOR)                         (* await ior.load() as UcpComponent *)
  | IOR_load_path (i : IOR)                    (* await ior.load({returnValue: path}) *)
  | DefaultIOR_load (typeIOR : string)         (* await DefaultIOR.load(typeIOR) *)
  | validateUDEStructure (body : option json)  (* UDELoader.validateUDEStructure(body) *)
  | new_component (cls : Class)                (* new udeComponentClass() *)
  | set_model (c : ref) (data : json)          (* udeComponent.model = data *)
  | set_IOR_id (c : ref) (id : option string)  (* udeComponent.IOR.id = id *)
  | PM_addAlias (c : ref) (alias : string)     (* persistanceManager.addAlias(alias) *)
  | PM_create (c : ref)                        (* await persistanceManager.create() *)
  | PM_delete (c : ref)                        (* await persistanceManager.delete() *)
  | PM_ucpComponentData (c : ref).             (* persistanceManager.ucpComponentData *)

Definition result_of (c : call) : Type :=
  match c with
  | IOR_init _ => IOR
  | IOR_load _ => ref
  | IOR_load_path _ => string
  | DefaultIOR_load _ => Class
  | validateUDEStructure _ => UDEStructure
  | new_component _ => ref
  | set_model _ _ => unit
  | set_IOR_id _ _ => unit
  | PM_addAlias _ _ => unit
  | PM_create _ => unit
  | PM_delete _ => unit
  | PM_ucpComponentData _ => UDEStructure
  end.

(** What a handler does to the [reply] object. *)
Inductive reply_action : Type :=
  | reply_header (name value : string)         (* reply.header(name, value) *)
  | reply_redirect (target : string).          (* reply.redirect(target) *)

Inductive prog (R : Type) : Type :=
  | Return (r : R)
  | Throw (e : error)
  | Reply (a : reply_action) (k : prog R)
  | Call (c : call) (k : result_of c -> prog R).
Arguments Return {R} r.
Arguments Throw {R} e.
Arguments Reply {R} a k.
Arguments Call {R} c k.

Fixpoint bind {A B : Type} (p : prog A) (f : A -> prog B) : prog B :=
  match p with
  | Return a => f a
  | Throw e => Throw e
  | Reply a k => Reply a (bind k f)
  | Call c k => Call c (fun x => bind (k x) f)
  end.

Definition call_ (c : call) : prog (result_of c) := Call c Return.
Definition reply (a : reply_action) : prog unit := Reply a (Return tt).

Declare Scope prog_scope.
Delimit Scope prog_scope with prog.
Notation "x <- p ;; q" := (bind p (fun x => q))
  (at level 100, p at next level, right associativity) : prog_scope.
Notation "p ;; q" := (bind p (fun _ => q))
  (at level 100, right associativity) : prog_scope.

(** [for (let a of l) { body(a) }] *)
Fixpoint for_of {A : Type} (l : list A) (body : A -> prog unit) : prog unit :=
  match l with
  | [] => Return tt
  | a :: rest => bind (body a) (fun _ => for_of rest body)
  end.

(** ** String and path helpers of the platform *)

(** [s.startsWith(p)] *)
Definition startsWith (s p : string) : bool := String.prefix p s.

(** [s.replace(/^\//, '')]: one leading slash, when there is one, is
    taken off. *)
Definition strip_leading_slash (s : string) : string :=
  match s with
  | String "/"%char rest => rest
  | _ => s
  end.

(** [s.split('/')] *)
Fixpoint split_slash (s : string) : list string :=
  match s with
  | EmptyString => [""]
  | String c rest =>
      if Ascii.eqb c "/"%char then "" :: split_slash rest
      else match split_slash rest with
           | seg :: more => String c seg :: more
           | [] => [String c ""]
           end
  end.

(** The segments of a path once [.], [..] and empty segments are resolved,
    as [path.normalize] leaves them; [..] at the root stays at the root. *)
Definition normalize_step (stack : list string) (seg : string) : list string :=
  if String.eqb seg "" then stack
  else if String.eqb seg "." then stack
  else if String.eqb seg ".." then removelast stack
  else stack ++ [seg].

Definition normalize_segments (segs : list string) : list string :=
  fold_left normalize_step segs [].

(** [path.resolve(p)] on POSIX, as the list of segments below the root: a
    relative path is taken from the working directory. *)
Definition path_resolve (cwd p : string) : list string :=
  if startsWith p "/" then normalize_segments (split_slash p)
  else normalize_segments (split_slash cwd ++ split_slash p).

Fixpoint drop_common (from to : list string) : list string * list string :=
  match from, to with
  | f :: from', t :: to' =>
      if String.eqb f t then drop_common from' to' else (from, to)
  | _, _ => (from, to)
  end.

(** [path.relative(from, to)] on POSIX: both paths are resolved, the
    segments they share from the root are dropped, every segment left of
    [from] becomes [..] and the segments left of [to] follow. *)
Definition path_relative (cwd from to : string) : string :=
  if String.eqb from to then ""
  else
    let '(up, down) := drop_common (path_resolve cwd from) (path_resolve cwd to) in
    String.concat "/" (repeat ".." (length up) ++ down).

(** The process-wide state the handlers read: [ONCE.eamd.scenario.webRoot]
    and the working directory [path] resolves relative paths from. *)
Record once : Type := mkOnce {
  webRoot : string;
  cwd : string
}.

(** ** The handlers *)

Section Handlers.

Variable ONCE : once.

Local Open Scope prog_scope.

(** [request.headers['sec-fetch-dest'] === 'script'] *)
Definition sec_fetch_dest_is_script (request : request) : bool :=
  match headers request !! "sec-fetch-dest" with
  | Some v => String.eqb v "script"
  | None => false
  end.

(** [server.get('/ior*', async (request, reply) => { ... })].  The two
    nested [if]s are followed by the [throw], which every path of the
    handler reaches unless a collaborator fails first. *)
Definition handle_ior (request : request) : prog unit :=
  let url := url request in
  (if startsWith url "/ior:esm:" then
     if sec_fetch_dest_is_script request then
       ior <- call_ (IOR_init (strip_leading_slash url)) ;;
       urlPath <- call_ (IOR_load_path ior) ;;
       let urlPath := path_relative (cwd ONCE) (webRoot ONCE) urlPath in
       reply (reply_redirect ("/" ++ urlPath))
     else Return tt
   else Return tt) ;;
  Throw NotFound.

(** [private async _handleUDE_CRUD(request, reply)] *)
Definition _handleUDE_CRUD (request : request) : prog payload :=
  let url := url request in
  reply (reply_header "Content-Type" "application/json; charset=utf-8") ;;
  if String.eqb (method request) "GET" then
    ior <- call_ (IOR_init url) ;;
    let ior := protocol_push ior ude in
    udeComponent <- call_ (IOR_load ior) ;;
    data <- call_ (PM_ucpComponentData udeComponent) ;;
    Return (Snapshot data)
  else if String.eqb (method request) "POST" then
    udeData <- call_ (validateUDEStructure (body request)) ;;
    udeComponentClass <- call_ (DefaultIOR_load (typeIOR udeData)) ;;
    udeComponent <- call_ (new_component udeComponentClass) ;;
    call_ (set_model udeComponent (particle_data udeData)) ;;
    call_ (set_IOR_id udeComponent (id udeData)) ;;
    match alias udeData with
    | Some aliases =>
        for_of aliases (fun alias => call_ (PM_addAlias udeComponent alias))
    | None => Return tt
    end ;;
    call_ (PM_create udeComponent) ;;
    data <- call_ (PM_ucpComponentData udeComponent) ;;
    Return (Snapshot data)
  else if String.eqb (method request) "DELETE" then
    ior <- call_ (IOR_init url) ;;
    let ior := protocol_push ior ude in
    udeComponent <- call_ (IOR_load ior) ;;
    call_ (PM_delete udeComponent) ;;
    Return DeleteOk
  else if String.eqb (method request) "PUT" then
    udeData <- call_ (validateUDEStructure (body request)) ;;
    ior <- call_ (IOR_init url) ;;
    let ior := protocol_push ior ude in
    udeComponent <- call_ (IOR_load ior) ;;
    call_ (set_model udeComponent (particle_data udeData)) ;;
    data <- call_ (PM_ucpComponentData udeComponent) ;;
    Return (Snapshot data)
  else
    Throw MethodNotImplemented.

End Handlers.

(** ** Running a handler *)

(** One line of the log of a run: an action on the reply, or a call with
    what it gave back. *)
Inductive entry : Type :=
  | Replied (a : reply_action)
  | Called (c : call) (r : result (result_of c)).

Inductive outcome (R : Type) : Type :=
  | Returned (r : R)
  | Thrown (e : error).
Arguments Returned {R} r.
Arguments Thrown {R} e.

Section Run.

(** The collaborators: each call, made in a world, gives a value or
    fails, and leaves a world. *)
Context {W : Type}.
Variable exec : forall c : call, W -> result (result_of c) * W.

(** No handler catches anything: the failure of a call ends the run with
    that failure. *)
Fixpoint run {R : Type} (p : prog R) (w : W) : list entry * outcome R * W :=
  match p with
  | Return r => ([], Returned r, w)
  | Throw e => ([], Thrown e, w)
  | Reply a k =>
      let '(log, o, w') := run k w in (Replied a :: log, o, w')
  | Call c k =>
      match exec c w with
      | (Err e, w1) => ([Called c (Err e)], Thrown e, w1)
      | (Ok x, w1) =>
          let '(log, o, w') := run (k x) w1 in (Called c (Ok x) :: log, o, w')
      end
  end.

End Run.

(** ** Reference collaborators *)

(** The parser, the resolver/loader, the payload validator, the components
    and their persistence managers are imported by the web server from the
    [tla.EAM.Once] and [tla.EAM.UcpComponent] packages; their TypeScript is
    not part of this source file.  [Reference] gives them one executable
    reading, taken from the specification, against which the handlers can
    be run end to end. *)
Module Reference.

(** A live component: its class, its canonical id, its aliases and its
    model. *)
Record component : Type := mkComponent {
  comp_class : Class;
  comp_id : option string;
  comp_alias : list string;
  comp_model : json
}.

(** The world of the collaborators: the live instances by identity, the
    process-wide registry from names to live instances, the durable
    state, the type references that resolve to a constructor and the
    module references that resolve to a file. *)
Record world : Type := mkWorld {
  heap : gmap nat component;
  next_ref : nat;
  registry : gmap string nat;
  durable : gmap string UDEStructure;
  classes : gset string;
  modules : gmap string string
}.

Definition set_heap (h : gmap nat component) (w : world) : world :=
  {| heap := h; next_ref := next_ref w; registry := registry w;
     durable := durable w; classes := classes w; modules := modules w |}.

Definition set_stores (r : gmap string nat) (d : gmap string UDEStructure)
    (w : world) : world :=
  {| heap := heap w; next_ref := next_ref w; registry := r;
     durable := d; classes := classes w; modules := modules w |}.

Definition alloc (comp : component) (w : world) : ref * world :=
  (next_ref w,
   {| heap := <[next_ref w := comp]> (heap w); next_ref := S (next_ref w);
      registry := registry w; durable := durable w;
      classes := classes w; modules := modules w |}).

Fixpoint string_drop (n : nat) (s : string) : string :=
  match n, s with
  | S n', String _ rest => string_drop n' rest
  | _, _ => s
  end.

(** Modelled from the spec: the Address Reference Parser behind
    [new DefaultIOR().init(url)] (§4.1).  An address is in the
    persisted-component namespace [/UDE/] or in the reference namespace,
    which begins with the scheme marker [ior:esm:]; anything else is a
    [MalformedReference].  Parsing is pure. *)
Definition parse (url : string) : result IOR :=
  if startsWith url "/UDE/" then
    Ok {| protocol := []; pathName := string_drop 5 url |}
  else if startsWith (strip_leading_slash url) "ior:esm:" then
    Ok {| protocol := [ior; esm];
          pathName := string_drop 8 (strip_leading_slash url) |}
  else Err MalformedReference.

Definition names_of (comp : component) : list string :=
  match comp_id comp with
  | Some i => i :: comp_alias comp
  | None => comp_alias comp
  end.

Definition snapshot (comp : component) : UDEStructure :=
  {| typeIOR := comp_class comp;
     particle_data := comp_model comp;
     id := comp_id comp;
     alias := Some (comp_alias comp) |}.

Definition register_all {V : Type} (names : list string) (v : V)
    (m : gmap string V) : gmap string V :=
  foldr (fun n acc => <[n := v]> acc) m names.

Definition remove_all {V : Type} (names : list string)
    (m : gmap string V) : gmap string V :=
  foldr (fun n acc => delete n acc) m names.

(** A name is free for component [c] when the registry does not map it to
    another instance. *)
Definition free_for (c : ref) (w : world) (n : string) : bool :=
  match registry w !! n with
  | Some c' => Nat.eqb c' c
  | None => true
  end.

(** Modelled from the spec: [load] of the Resolver/Loader (§4.2) for a
    reference whose chain ends in the persisted-component tag.  The
    registry answers for a live instance; otherwise the component is
    loaded from durable storage and registered under all its names;
    otherwise the address does not resolve. *)
Definition load_component (i : IOR) (w : world) : result ref * world :=
  match last (protocol i) with
  | Some ude =>
      match registry w !! pathName i with
      | Some c => (Ok c, w)
      | None =>
          match durable w !! pathName i with
          | Some data =>
              let comp := {| comp_class := typeIOR data;
                             comp_id := id data;
                             comp_alias := default [] (alias data);
                             comp_model := particle_data data |} in
              let '(c, w1) := alloc comp w in
              (Ok c, set_stores (register_all (names_of comp) c (registry w1))
                                (durable w1) w1)
          | None => (Err NotFound, w)
          end
      end
  | _ => (Err NotFound, w)
  end.

(** Modelled from the spec: [load] for a reference of the reference
    namespace, asked for a path: the location of the resource, or
    [NotFound]. *)
Definition load_path (i : IOR) (w : world) : result string * world :=
  match last (protocol i) with
  | Some esm =>
      match modules w !! pathName i with
      | Some p => (Ok p, w)
      | None => (Err NotFound, w)
      end
  | _ => (Err NotFound, w)
  end.

(** Modelled from the spec: [loadClass] (§4.2), a type reference resolves
    to a constructor or to nothing. *)
Definition load_class (t : string) (w : world) : result Class * world :=
  if bool_decide (t ∈ classes w) then (Ok t, w) else (Err NotFound, w).

Fixpoint strings_of (items : list json) : option (list string) :=
  match items with
  | [] => Some []
  | JString s :: rest =>
      match strings_of rest with
      | Some l => Some (s :: l)
      | None => None
      end
  | _ :: _ => None
  end.

(** Modelled from the spec: [validateStructure] (§4.2), the body has a
    [typeReference], a [model], an optional [id] and an optional list of
    [aliases], or the payload is malformed. *)
Definition validate (body : option json) : result UDEStructure :=
  match body with
  | Some (JObject fields) =>
      match get_field "typeReference" fields, get_field "model" fields with
      | Some (JString t), Some m =>
          match get_field "id" fields, get_field "aliases" fields with
          | None, None => Ok (mkUDE t m None None)
          | Some (JString i), None => Ok (mkUDE t m (Some i) None)
          | None, Some (JArray items) =>
              match strings_of items with
              | Some l => Ok (mkUDE t m None (Some l))
              | None => Err MalformedPayload
              end
          | Some (JString i), Some (JArray items) =>
              match strings_of items with
              | Some l => Ok (mkUDE t m (Some i) (Some l))
              | None => Err MalformedPayload
              end
          | _, _ => Err MalformedPayload
          end
      | _, _ => Err MalformedPayload
      end
  | _ => Err MalformedPayload
  end.

(** An operation on a component that is not live fails. *)
Definition with_component {X : Type} (c : ref) (w : world)
    (f : component -> result X * world) : result X * world :=
  match heap w !! c with
  | Some comp => f comp
  | None => (Err (OtherFailure "no such component"), w)
  end.

Definition update (c : ref) (comp : component) (w : world) : world :=
  set_heap (<[c := comp]> (heap w)) w.

(** Modelled from the spec: the component and its PersistenceManager
    (§3, §4.3).  The model setter replaces the model, the id setter the
    id.  A name maps onto one component (§3): [addAlias] adds a name to
    the alias set of the component and fails when the name belongs to
    another one; [create] makes the component durable and registers it
    under its id and aliases, and fails when one of them belongs to
    another one.  [delete] takes all the names of the component out of the
    registry and of durable storage; [ucpComponentData] is the snapshot. *)
Definition exec (c : call) : world -> result (result_of c) * world :=
  match c as c0 return world -> result (result_of c0) * world with
  | IOR_init u => fun w => (parse u, w)
  | IOR_load i => load_component i
  | IOR_load_path i => load_path i
  | DefaultIOR_load t => load_class t
  | validateUDEStructure b => fun w => (validate b, w)
  | new_component cls => fun w =>
      let '(c, w1) := alloc (mkComponent cls None [] (JObject [])) w in
      (Ok c, w1)
  | set_model c m => fun w =>
      with_component c w (fun comp =>
        (Ok tt, update c (mkComponent (comp_class comp) (comp_id comp)
                                      (comp_alias comp) m) w))
  | set_IOR_id c i => fun w =>
      with_component c w (fun comp =>
        (Ok tt, update c (mkComponent (comp_class comp) i
                                      (comp_alias comp) (comp_model comp)) w))
  | PM_addAlias c a => fun w =>
      with_component c w (fun comp =>
        if free_for c w a then
          if bool_decide (a ∈ comp_alias comp) then (Ok tt, w)
          else (Ok tt, update c (mkComponent (comp_class comp) (comp_id comp)
                                   (comp_alias comp ++ [a]) (comp_model comp)) w)
        else (Err (OtherFailure "alias in use"), w))
  | PM_create c => fun w =>
      with_component c w (fun comp =>
        if forallb (free_for c w) (names_of comp) then
          (Ok tt, set_stores (register_all (names_of comp) c (registry w))
                             (register_all (names_of comp) (snapshot comp) (durable w))
                             w)
        else (Err (OtherFailure "already exists"), w))
  | PM_delete c => fun w =>
      with_component c w (fun comp =>
        (Ok tt, set_stores (remove_all (names_of comp) (registry w))
                           (remove_all (names_of comp) (durable w)) w))
  | PM_ucpComponentData c => fun w =>
      with_component c w (fun comp => (Ok (snapshot comp), w))
  end.

(** A world to run the handlers in: one component class, one module
    under the web root, nothing created yet. *)
Definition ONCE : once :=
  {| webRoot := "Scenarios/localhost"; cwd := "/var/EAMD.ucp" |}.

Definition Thing : string := "ior:esm:/tla.EAM.Once[dev]/Thing".

Definition w0 : world :=
  {| heap := ∅; next_ref := 0; registry := ∅; durable := ∅;
     classes := {[ Thing ]};
     modules := {[ "/tla.EAM.Once[dev]" :=
                   "/var/EAMD.ucp/Scenarios/localhost/EAMD.ucp/tla/EAM/Once/dev/index.mjs" ]} |}.

Definition script_get (u : string) : request :=
  mkRequest "GET" u {[ "sec-fetch-dest" := "script" ]} None.

Definition plain_get (u : string) : request := mkRequest "GET" u ∅ None.

(** [{typeReference: T, model: M, id: X}] *)
Definition create_body (T : string) (M : json) (X : string) : json :=
  JObject [("typeReference", JString T); ("model", M); ("id", JString X)].

Definition post (b : json) : request := mkRequest "POST" "/UDE" ∅ (Some b).

Definition put (u : string) (b : json) : request := mkRequest "PUT" u ∅ (Some b).

End Reference.

(** The create operation of [_handleUDE_CRUD] from the alias loop on: what
    is left to do once the new component has its model and its id. *)
Definition create_tail (c : ref) (aliases : option (list string)) : prog payload :=
  (match aliases with
   | Some aliases => for_of aliases (fun alias => call_ (PM_addAlias c alias))
   | None => Return tt
   end ;;
   call_ (PM_create c) ;;
   data <- call_ (PM_ucpComponentData c) ;;
   Return (Snapshot data))%prog.

(** ** Reading a run *)

Definition log_of {R W : Type} (r : list entry * outcome R * W) : list entry := r.1.1.
Definition outcome_of {R W : Type} (r : list entry * outcome R * W) : outcome R := r.1.2.
Definition world_of {R W : Type} (r : list entry * outcome R * W) : W := r.2.

(** The calls of a log, in order, without what they gave back. *)
Fixpoint calls_of (log : list entry) : list call :=
  match log with
  | [] => []
  | Replied _ :: rest => calls_of rest
  | Called c _ :: rest => c :: calls_of rest
  end.

(** The targets of the redirects of a log, in order. *)
Fixpoint redirects (log : list entry) : list string :=
  match log with
  | [] => []
  | Replied (reply_redirect target) :: rest => target :: redirects rest
  | _ :: rest => redirects rest
  end.

(** The call of a log that failed. *)
Fixpoint failure_of (log : list entry) : option call :=
  match log with
  | [] => None
  | Called c (Err _) :: _ => Some c
  | _ :: rest => failure_of rest
  end.

(** The payload a log shows as validated. *)
Fixpoint validated (log : list entry) : option UDEStructure :=
  match log with
  | [] => None
  | Called (validateUDEStructure _) (Ok udeData) :: _ => Some udeData
  | _ :: rest => validated rest
  end.

(** A handler sends a response when it redirects and when it returns a
    payload to the server; it raises a failure when it throws. *)
Definition responses {R : Type} (log : list entry) (o : outcome R) : nat :=
  length (redirects log) + match o with Returned _ => 1 | Thrown _ => 0 end.

Definition failures {R : Type} (o : outcome R) : nat :=
  match o with Returned _ => 0 | Thrown _ => 1 end.

(** Calls that write through the persistence manager. *)
Definition persistence_write (c : call) : bool :=
  match c with
  | PM_addAlias _ _ | PM_create _ | PM_delete _ => true
  | _ => false
  end.

Definition is_parse (c : call) : bool :=
  match c with IOR_init _ => true | _ => false end.

(** The reference of a request does not resolve: the resolver, asked for
    the path of the parsed reference, signals [NotFound]. *)
Definition unresolved {W : Type}
    (exec : forall c : call, W -> result (result_of c) * W)
    (w : W) (u : string) : Prop :=
  match exec (IOR_init (strip_leading_slash u)) w with
  | (Err e, _) => e = NotFound
  | (Ok i, w1) =>
      match exec (IOR_load_path i) w1 with
      | (Err e, _) => e = NotFound
      | (Ok _, _) => False
      end
  end.

(** ** A scenario

    A first component is created under the id [X] with the alias [a] and
    the model [{foo: 1, bar: 2}]; the requests that follow are made in the
    world this leaves. *)
Module Scenario.

Import Reference.

Definition first_body : json :=
  JObject [("typeReference", JString Thing);
           ("model", JObject [("foo", JNumber 1); ("bar", JNumber 2)]);
           ("id", JString "X");
           ("aliases", JArray [JString "a"])].

Definition w_created : world :=
  world_of (run exec (_handleUDE_CRUD (post first_body)) w0).

(** A second create whose second alias belongs to the first component. *)
Definition second_body : json :=
  JObject [("typeReference", JString Thing);
           ("model", JObject [("foo", JNumber 2)]);
           ("id", JString "Y");
           ("aliases", JArray [JString "b"; JString "a"; JString "c"])].

(** A create without [typeReference]. *)
Definition untyped_body : json :=
  JObject [("model", JObject [("foo", JNumber 1)]); ("id", JString "Z")].

(** An update to the model [{foo: 9}]. *)
Definition update_body : json :=
  JObject [("typeReference", JString Thing);
           ("model", JObject [("foo", JNumber 9)])].

End Scenario.

(** ** More ways to read a run *)

(** The actions on the reply of a log, in order. *)
Fixpoint reply_actions (log : list entry) : list reply_action :=
  match log with
  | [] => []
  | Replied a :: rest => a :: reply_actions rest
  | Called _ _ :: rest => reply_actions rest
  end.

(** The failure of the last call of a log, when the last entry is a call
    that failed. *)
Definition thrown_by (log : list entry) : option error :=
  match last log with
  | Some (Called _ (Err e)) => Some e
  | _ => None
  end.

(** The verbs [_handleUDE_CRUD] has a branch for. *)
Definition implemented_verb (m : string) : bool :=
  String.eqb m "GET" || String.eqb m "POST" || String.eqb m "DELETE"
  || String.eqb m "PUT".


(** ** Starting and stopping the server

    [static start], [start] and [stop] of [DefaultOnceWebserver], with the
    getters [start] reads.  They call the loader, the persistence manager,
    the file system, the key generator, the HTTP server and the console;
    [static start] and [start] each have a [try]: they are written in a
    monad of state, log and abrupt completion, over any implementation of
    what they call. *)
Module Startup.

(** What can be thrown, as far as [catch (e)] in [static start] tells
    values apart: by [e instanceof Error] and by [e.message]. *)
Inductive thrown : Type :=
  | JsError (message : string)            (* an Error with this message *)
  | TypeError                             (* a method call on undefined *)
  | NotAnError (message : option string). (* a thrown value that is no Error *)

(** [e instanceof Error && e.message === 'No file Found'] *)
Definition no_file_found (e : thrown) : bool :=
  match e with
  | JsError message => String.eqb message "No file Found"
  | TypeError => false
  | NotAnError _ => false
  end.

Inductive completion (R : Type) : Type :=
  | Normal (r : R)
  | Abrupt (e : thrown).
Arguments Normal {R} r.
Arguments Abrupt {R} e.

(** A server made by [fastify(options)], by identity. *)
Definition server : Type := nat.

(** [options.https], [options] *)
Record https_options : Type := mkHttps {
  allowHTTP1 : bool;
  https_key : string;
  https_cert : string
}.

Record fastify_options : Type := mkOptions {
  logger : bool;
  https : option https_options;
  http2 : option bool
}.

(** The two handlers [start] registers. *)
Inductive handler : Type :=
  | ior_handler                 (* async (request, reply) => { ... } *)
  | handleUDE_CRUD.             (* this._handleUDE_CRUD *)

(** The options of a [fastifyStatic] registration; [static_list] is the
    [format] of the directory listing, rendered by
    [this.buildDirectoryPage]. *)
Record static_options : Type := mkStatic {
  static_root : string;
  static_prefix : string;
  static_index : option bool;
  static_list : option string;
  decorateReply : option bool
}.

(** What the three functions call. *)
Inductive sys : Type :=
  | UDELoader_load (scenarioName : string)     (* await UDELoader.load(name) *)
  | instance_start (s : ref)                   (* await server.start() *)
  | new_this                                   (* new this() *)
  | addAlias (s : ref) (alias : string)        (* persistanceManager.addAlias *)
  | create (s : ref)                           (* await persistanceManager.create() *)
  | existsSync (path : string)
  | mkdirp (path : string)                     (* await mkdirp(path) *)
  | keygen (key cert : string) (entrust : bool)(* await keygen({key, cert, entrust}) *)
  | readFileSync (path : string)
  | fastify (options : fastify_options)
  | route (s : server) (verb path : string) (h : handler)  (* server.get(path, h), ... *)
  | register_static (s : server) (o : static_options)      (* await server.register *)
  | listen (s : server) (port : Z)             (* server.listen({ port }) *)
  | close (s : server)                         (* this._server.close() *)
  | console_error (e : thrown)
  | console_log (message : string).

Definition sys_result (c : sys) : Type :=
  match c with
  | UDELoader_load _ => ref
  | new_this => ref
  | existsSync _ => bool
  | readFileSync _ => string
  | fastify _ => server
  | _ => unit
  end.

Inductive event : Type :=
  | Did (c : sys) (r : completion (sys_result c)).

(** Computations over a state [St]: the log of what was done, how the
    computation completed, and the state it leaves. *)
Definition M (St R : Type) : Type := St -> list event * completion R * St.

Definition ret {St R : Type} (r : R) : M St R := fun s => ([], Normal r, s).

Definition throw {St R : Type} (e : thrown) : M St R := fun s => ([], Abrupt e, s).

Definition mbind {St A B : Type} (m : M St A) (f : A -> M St B) : M St B :=
  fun s =>
    match m s with
    | (log, Normal a, s1) =>
        match f a s1 with
        | (log2, o, s2) => ((log ++ log2)%list, o, s2)
        end
    | (log, Abrupt e, s1) => (log, Abrupt e, s1)
    end.

(** [try { body } catch (e) { handle(e) }] *)
Definition try_catch {St R : Type} (body : M St R) (handle : thrown -> M St R)
    : M St R :=
  fun s =>
    match body s with
    | (log, Normal r, s1) => (log, Normal r, s1)
    | (log, Abrupt e, s1) =>
        match handle e s1 with
        | (log2, o, s2) => ((log ++ log2)%list, o, s2)
        end
    end.

Definition perform {St : Type}
    (exec : forall c : sys, St -> completion (sys_result c) * St)
    (c : sys) : M St (sys_result c) :=
  fun s => match exec c s with (r, s1) => ([Did c r], r, s1) end.

Declare Scope startup_scope.
Delimit Scope startup_scope with startup.
Notation "x <- p ;; q" := (mbind p (fun x => q))
  (at level 100, p at next level, right associativity) : startup_scope.
Notation "p ;; q" := (mbind p (fun _ => q))
  (at level 100, right associativity) : startup_scope.

(** [ONCE.eamd.scenario] *)
Record scenario : Type := mkScenario {
  scenario_name : string;
  eamdPath : string;
  scenario_webRoot : string
}.

(** The server component: the two fields of its model that this file
    declares, the [scenarioDirectory] of its descriptor and [_server],
    which is [undefined] until [start] sets it. *)
Record webserver : Type := mkWebserver {
  port : Z;
  model_protocol : string;
  scenarioDirectory : string;
  _server : option server
}.

(** The state of a method call on a server component: the component and
    the world around it. *)
Record method_state (W : Type) : Type := mkState {
  this : webserver;
  world : W
}.
Arguments mkState {W} this world.
Arguments this {W} m.
Arguments world {W} m.

(** [path.join] and [path.dirname] are taken as they are given. *)
Record path_module : Type := mkPath {
  join : list string -> string;
  dirname : string -> string
}.

Section Programs.

Context {W : Type}.
Variable exec : forall c : sys, W -> completion (sys_result c) * W.
Variable path : path_module.
Variable ONCE_scenario : scenario.
Variable className : string.
Variable instanceof_this : ref -> bool.

Local Open Scope startup_scope.

(** A call made from a method leaves the component as it is. *)
Definition exec_in_method (c : sys) (s : method_state W)
    : completion (sys_result c) * method_state W :=
  match exec c (world s) with
  | (r, w1) => (r, mkState (this s) w1)
  end.

(** [static async start(scenarioName?: string)] *)
Definition static_start (scenarioName : option string) : M W ref :=
  let scenarioName :=
    match scenarioName with
    | None => className ++ "Instance"
    | Some name => name
    end in
  returned <-
    try_catch
      (loadedServer <- perform exec (UDELoader_load scenarioName) ;;
       if instanceof_this loadedServer then
         perform exec (instance_start loadedServer) ;;
         ret (Some loadedServer)
       else ret None)
      (fun e => if no_file_found e then ret None else throw e) ;;
  match returned with
  | Some loadedServer => ret loadedServer
  | None =>
      newServer <- perform exec new_this ;;
      perform exec (addAlias newServer scenarioName) ;;
      perform exec (create newServer) ;;
      perform exec (instance_start newServer) ;;
      ret newServer
  end.

(** [get tlsPath], [get tlsKeyPath], [get tlsCertPath] *)
Definition tlsPath (this : webserver) : string :=
  join path [eamdPath ONCE_scenario; scenario_webRoot ONCE_scenario;
             scenarioDirectory this; "tls"].

Definition tlsKeyPath (this : webserver) : string :=
  join path [tlsPath this; "key.pem"].

Definition tlsCertPath (this : webserver) : string :=
  join path [tlsPath this; "cert.pem"].

Definition get_this : M (method_state W) webserver :=
  fun s => ([], Normal (this s), s).

(** [this._server = server] *)
Definition set_server (server : server) : M (method_state W) unit :=
  fun s =>
    ([], Normal tt,
     mkState (mkWebserver (port (this s)) (model_protocol (this s))
                          (scenarioDirectory (this s)) (Some server))
             (world s)).

(** The three parts of [start], named: the key pair of the local
    scenario, the options of the server, and the server itself. *)
Definition tls_bootstrap (this : webserver) : M (method_state W) unit :=
  if String.eqb (scenario_name ONCE_scenario) "localhost" then
    found <- perform exec_in_method (existsSync (tlsKeyPath this)) ;;
    if negb found then
      perform exec_in_method (mkdirp (dirname path (tlsKeyPath this))) ;;
      perform exec_in_method (keygen (tlsKeyPath this) (tlsCertPath this) false)
    else ret tt
  else ret tt.

Definition server_options (this : webserver) : M (method_state W) fastify_options :=
  if String.eqb (model_protocol this) "https" then
    key <- perform exec_in_method (readFileSync (tlsKeyPath this)) ;;
    cert <- perform exec_in_method (readFileSync (tlsCertPath this)) ;;
    ret (mkOptions true (Some (mkHttps true key cert)) (Some true))
  else ret (mkOptions true None None).

Definition web_root_static : static_options :=
  mkStatic (join path [eamdPath ONCE_scenario; scenario_webRoot ONCE_scenario])
           "/" (Some false) (Some "html") None.

Definition components_static : static_options :=
  mkStatic (join path [eamdPath ONCE_scenario; "./Components"])
           "/Components/" None None (Some false).

Definition listen_and_announce (this : webserver) (server : server)
    : M (method_state W) unit :=
  try_catch
    (perform exec_in_method (listen server (port this)))
    (fun err => perform exec_in_method (console_error err)) ;;
  set_server server ;;
  perform exec_in_method
    (console_log "ONCE STARTED AS NODE_JS WITH EXTERNAL MODULE").

Definition serve (this : webserver) (options : fastify_options)
    : M (method_state W) unit :=
  server <- perform exec_in_method (fastify options) ;;
  perform exec_in_method (route server "GET" "/ior*" ior_handler) ;;
  perform exec_in_method (route server "GET" "/UDE/*" handleUDE_CRUD) ;;
  perform exec_in_method (route server "PUT" "/UDE/*" handleUDE_CRUD) ;;
  perform exec_in_method (route server "POST" "/UDE/*" handleUDE_CRUD) ;;
  perform exec_in_method (route server "POST" "/UDE" handleUDE_CRUD) ;;
  perform exec_in_method (route server "DELETE" "/UDE/*" handleUDE_CRUD) ;;
  perform exec_in_method (register_static server web_root_static) ;;
  perform exec_in_method (register_static server components_static) ;;
  listen_and_announce this server.

(** The creation of a new server in [static start], after the [try]. *)
Definition start_new (scenarioName : string) : M W ref :=
  newServer <- perform exec new_this ;;
  perform exec (addAlias newServer scenarioName) ;;
  perform exec (create newServer) ;;
  perform exec (instance_start newServer) ;;
  ret newServer.

(** [async start(): Promise<void>] *)
Definition start : M (method_state W) unit :=
  this <- get_this ;;
  let scenario := ONCE_scenario in
  let tlsPaths_key := tlsKeyPath this in
  let tlsPaths_cert := tlsCertPath this in
  (if String.eqb (scenario_name scenario) "localhost" then
     found <- perform exec_in_method (existsSync tlsPaths_key) ;;
     if negb found then
       perform exec_in_method (mkdirp (dirname path tlsPaths_key)) ;;
       perform exec_in_method (keygen tlsPaths_key tlsPaths_cert false)
     else ret tt
   else ret tt) ;;
  options <-
    (if String.eqb (model_protocol this) "https" then
       key <- perform exec_in_method (readFileSync tlsPaths_key) ;;
       cert <- perform exec_in_method (readFileSync tlsPaths_cert) ;;
       ret (mkOptions true (Some (mkHttps true key cert)) (Some true))
     else ret (mkOptions true None None)) ;;
  server <- perform exec_in_method (fastify options) ;;
  perform exec_in_method (route server "GET" "/ior*" ior_handler) ;;
  perform exec_in_method (route server "GET" "/UDE/*" handleUDE_CRUD) ;;
  perform exec_in_method (route server "PUT" "/UDE/*" handleUDE_CRUD) ;;
  perform exec_in_method (route server "POST" "/UDE/*" handleUDE_CRUD) ;;
  perform exec_in_method (route server "POST" "/UDE" handleUDE_CRUD) ;;
  perform exec_in_method (route server "DELETE" "/UDE/*" handleUDE_CRUD) ;;
  let webRoot := join path [eamdPath scenario; scenario_webRoot scenario] in
  perform exec_in_method
    (register_static server
       (mkStatic webRoot "/" (Some false) (Some "html") None)) ;;
  perform exec_in_method
    (register_static server
       (mkStatic (join path [eamdPath scenario; "./Components"])
                 "/Components/" None None (Some false))) ;;
  try_catch
    (perform exec_in_method (listen server (port this)))
    (fun err => perform exec_in_method (console_error err)) ;;
  set_server server ;;
  perform exec_in_method
    (console_log "ONCE STARTED AS NODE_JS WITH EXTERNAL MODULE").

(** [async stop(): Promise<boolean>] *)
Definition stop : M (method_state W) bool :=
  this <- get_this ;;
  match _server this with
  | None => throw TypeError
  | Some server =>
      perform exec_in_method (close server) ;;
      ret true
  end.

End Programs.

(** ** Reading a run of the start-up code *)

Definition events {St R : Type} (r : list event * completion R * St) : list event := r.1.1.
Definition completed {St R : Type} (r : list event * completion R * St) : completion R := r.1.2.
Definition state_after {St R : Type} (r : list event * completion R * St) : St := r.2.

(** The calls of a log with the failure of each, if it failed. *)
Fixpoint trace (log : list event) : list (sys * option thrown) :=
  match log with
  | [] => []
  | Did c (Normal _) :: rest => (c, None) :: trace rest
  | Did c (Abrupt e) :: rest => (c, Some e) :: trace rest
  end.

Definition sys_calls (log : list event) : list sys := map fst (trace log).

(** The servers [fastify] has made in a log. *)
Fixpoint servers_made (log : list event) : list server :=
  match log with
  | [] => []
  | Did (fastify _) (Normal s) :: rest => s :: servers_made rest
  | _ :: rest => servers_made rest
  end.

(** A run continued after some first events. *)
Definition after {St R : Type} (first : list event)
    (r : list event * completion R * St) : list event * completion R * St :=
  ((first ++ events r)%list, completed r, state_after r).

(** The name [static start] looks up: the one it is given, or the class
    name followed by [Instance]. *)
Definition looked_up (className : string) (scenarioName : option string) : string :=
  match scenarioName with
  | None => className ++ "Instance"
  | Some name => name
  end.

(** The three ways a run of [static start] comes to make a new server:
    what the log holds before [new this()]. *)
Definition fell_through (instanceof_this : ref -> bool) (n : string)
    (pre : list event) : Prop :=
  (exists e, no_file_found e = true /\ pre = [Did (UDELoader_load n) (Abrupt e)])
  \/ (exists s0, instanceof_this s0 = false
                 /\ pre = [Did (UDELoader_load n) (Normal s0)])
  \/ (exists s0 e, instanceof_this s0 = true /\ no_file_found e = true
                   /\ pre = [Did (UDELoader_load n) (Normal s0);
                             Did (instance_start s0) (Abrupt e)]).


End Startup.


(** ** A machine to start the server on

    The loader, the persistence manager, the file system, the key
    generator, the HTTP server and the console are libraries: they are
    not part of this file, and the properties of the start-up code hold
    for whatever they do.  The examples need something to run on; this
    machine is the simplest thing that will do. *)
Module Machine.

Import Startup.

Record machine : Type := mkMachine {
  saved : list (string * ref);      (* what the loader finds, by name *)
  files : list (string * string);   (* the files, by path *)
  busy : list Z;                    (* the ports [listen] throws on *)
  counter : nat                     (* the next object or server *)
}.

Fixpoint assoc {V : Type} (key : string) (l : list (string * V)) : option V :=
  match l with
  | [] => None
  | (k, v) :: rest => if String.eqb k key then Some v else assoc key rest
  end.

Definition save (alias : string) (s : ref) (m : machine) : machine :=
  mkMachine ((alias, s) :: saved m) (files m) (busy m) (counter m).

Definition put_file (path content : string) (m : machine) : machine :=
  mkMachine (saved m) ((path, content) :: files m) (busy m) (counter m).

Definition fresh (m : machine) : nat * machine :=
  (counter m, mkMachine (saved m) (files m) (busy m) (S (counter m))).

(** The loader fails with [Error('No file Found')] for a name that was
    not saved; a file that is not there cannot be read; [listen] throws
    on a busy port; everything else succeeds. *)
Definition exec (c : sys) : machine -> completion (sys_result c) * machine :=
  match c as c0 return machine -> completion (sys_result c0) * machine with
  | UDELoader_load scenarioName => fun m =>
      match assoc scenarioName (saved m) with
      | Some s => (Normal s, m)
      | None => (Abrupt (JsError "No file Found"), m)
      end
  | instance_start _ => fun m => (Normal tt, m)
  | new_this => fun m => let '(s, m1) := fresh m in (Normal s, m1)
  | addAlias s alias => fun m => (Normal tt, save alias s m)
  | create _ => fun m => (Normal tt, m)
  | existsSync path => fun m =>
      (Normal (match assoc path (files m) with Some _ => true | None => false end), m)
  | mkdirp _ => fun m => (Normal tt, m)
  | keygen key cert _ => fun m =>
      (Normal tt,
       put_file cert "generated certificate" (put_file key "generated key" m))
  | readFileSync path => fun m =>
      match assoc path (files m) with
      | Some content => (Normal content, m)
      | None => (Abrupt (JsError "ENOENT: no such file or directory"), m)
      end
  | fastify _ => fun m => let '(s, m1) := fresh m in (Normal s, m1)
  | route _ _ _ _ => fun m => (Normal tt, m)
  | register_static _ _ => fun m => (Normal tt, m)
  | listen _ port => fun m =>
      if existsb (Z.eqb port) (busy m)
      then (Abrupt (JsError "EADDRINUSE: address already in use"), m)
      else (Normal tt, m)
  | close _ => fun m => (Normal tt, m)
  | console_error _ => fun m => (Normal tt, m)
  | console_log _ => fun m => (Normal tt, m)
  end.

Fixpoint has_slash (s : string) : bool :=
  match s with
  | EmptyString => false
  | String c rest => if Ascii.eqb c "/" then true else has_slash rest
  end.

Fixpoint before_last_slash (s : string) : string :=
  match s with
  | EmptyString => EmptyString
  | String c rest =>
      if has_slash rest then String c (before_last_slash rest) else EmptyString
  end.

(** A path module that joins with a slash and does not normalise. *)
Definition slashes : path_module :=
  mkPath (String.concat "/") before_last_slash.

Definition className : string := "DefaultOnceWebserver".

(** Object [0] is something else than a web server; every other object
    is one. *)
Definition instanceof_this (s : ref) : bool := negb (Nat.eqb s 0).

Definition localhost : scenario :=
  mkScenario "localhost" "/var/EAMD.ucp" "Scenarios/localhost".

Definition production : scenario :=
  mkScenario "production" "/var/EAMD.ucp" "Scenarios/production".

(** A component with the default data of the model, not started. *)
Definition component : webserver :=
  mkWebserver 3000 "https" "tla/EAM/OnceWebserver" None.

(** Nothing saved, no files, no busy port. *)
Definition empty : machine := mkMachine [] [] [] 1.

(** The instance name of the class is saved and names a web server. *)
Definition with_saved_server : machine :=
  mkMachine [("DefaultOnceWebserverInstance", 7)] [] [] 8.

(** The instance name of the class is saved and names something else. *)
Definition with_saved_stranger : machine :=
  mkMachine [("DefaultOnceWebserverInstance", 0)] [] [] 1.

End Machine.

(** A world in which a module resolves to a file beside the web root, not
    below it. *)
Definition w_beside : Reference.world :=
  {| Reference.heap := ∅; Reference.next_ref := 0; Reference.registry := ∅;
     Reference.durable := ∅; Reference.classes := ∅;
     Reference.modules :=
       {[ "/tla.EAM.Once[dev]" := "/var/EAMD.ucp/Components/Once/index.mjs" ]} |}.

(** * Properties *)

(** ** Paths *)

Lemma drop_common_prefix (root rest : list string) :
  drop_common root (root ++ rest) = ([], rest).
Proof.
  induction root as [| seg root IH]; cbn.
  - destruct rest; reflexivity.
  - rewrite String.eqb_refl. exact IH.
Qed.

(** A path below [from] is made relative by taking the segments of [from]
    off its front: nothing of [from] is left in the result. *)
Lemma path_relative_below (cwd from to : string) (rest : list string) :
  String.eqb from to = false ->
  path_resolve cwd to = (path_resolve cwd from ++ rest)%list ->
  path_relative cwd from to = String.concat "/" rest.
Proof.
  intros Hne Hto. unfold path_relative. rewrite Hne, Hto, drop_common_prefix.
  reflexivity.
Qed.

Example path_relative_siblings :
  path_relative "/" "/data/orandea/test/aaa" "/data/orandea/impl/bbb"
  = "../../impl/bbb".
Proof. reflexivity. Qed.

Example path_relative_web_root :
  path_relative "/var/EAMD.ucp" "Scenarios/localhost"
    "/var/EAMD.ucp/Scenarios/localhost/EAMD.ucp/tla/EAM/Once/dev/index.mjs"
  = "EAMD.ucp/tla/EAM/Once/dev/index.mjs".
Proof. reflexivity. Qed.

(** ** The reference collaborators at work *)

Example reference_alias_reads_the_same_component :
  outcome_of (run Reference.exec (_handleUDE_CRUD (Reference.plain_get "/UDE/a"))
                  Scenario.w_created)
  = outcome_of (run Reference.exec (_handleUDE_CRUD (Reference.plain_get "/UDE/X"))
                    Scenario.w_created).
Proof. reflexivity. Qed.

Example reference_delete_is_final :
  let deleted :=
    run Reference.exec
      (_handleUDE_CRUD (mkRequest "DELETE" "/UDE/X" ∅ None)) Scenario.w_created in
  outcome_of deleted = Returned DeleteOk
  /\ outcome_of (run Reference.exec (_handleUDE_CRUD (Reference.plain_get "/UDE/X"))
                     (world_of deleted)) = Thrown NotFound
  /\ outcome_of (run Reference.exec (_handleUDE_CRUD (Reference.plain_get "/UDE/a"))
                     (world_of deleted)) = Thrown NotFound.
Proof. repeat split. Qed.

Example reference_rejects_unknown_verbs :
  outcome_of (run Reference.exec (_handleUDE_CRUD (mkRequest "HEAD" "/UDE/X" ∅ None))
                  Scenario.w_created)
  = Thrown MethodNotImplemented.
Proof. reflexivity. Qed.

(** ** The [GET /ior*] handler *)

Section IorHandler.

Context {W : Type}.
Variable exec : forall c : call, W -> result (result_of c) * W.
Variable ONCE : once.

Lemma handle_ior_unmarked (w : W) (req : request) :
  startsWith (url req) "/ior:esm:" = false ->
  run exec (handle_ior ONCE req) w = ([], Thrown NotFound, w).
Proof.
  intros Hpre. unfold handle_ior. rewrite Hpre. reflexivity.
Qed.

Lemma handle_ior_not_script (w : W) (req : request) :
  sec_fetch_dest_is_script req = false ->
  run exec (handle_ior ONCE req) w = ([], Thrown NotFound, w).
Proof.
  intros Hhdr. unfold handle_ior. rewrite Hhdr.
  destruct (startsWith (url req) "/ior:esm:"); reflexivity.
Qed.

(** With the marker and the header, the handler parses, resolves,
    redirects, and then reaches the [throw] at its end. *)
Lemma handle_ior_script (w : W) (req : request) :
  startsWith (url req) "/ior:esm:" = true ->
  sec_fetch_dest_is_script req = true ->
  run exec (handle_ior ONCE req) w =
    match exec (IOR_init (strip_leading_slash (url req))) w with
    | (Err e, w1) =>
        ([Called (IOR_init (strip_leading_slash (url req))) (Err e)],
         Thrown e, w1)
    | (Ok i, w1) =>
        match exec (IOR_load_path i) w1 with
        | (Err e, w2) =>
            ([Called (IOR_init (strip_leading_slash (url req))) (Ok i);
              Called (IOR_load_path i) (Err e)], Thrown e, w2)
        | (Ok p, w2) =>
            ([Called (IOR_init (strip_leading_slash (url req))) (Ok i);
              Called (IOR_load_path i) (Ok p);
              Replied (reply_redirect
                         ("/" ++ path_relative (cwd ONCE) (webRoot ONCE) p))],
             Thrown NotFound, w2)
        end
    end.
Proof.
  intros Hpre Hhdr. unfold handle_ior. rewrite Hpre, Hhdr. cbn.
  destruct (exec (IOR_init _) w) as [[i|e] w1]; [|reflexivity].
  cbn. destruct (exec (IOR_load_path i) w1) as [[p|e] w2]; reflexivity.
Qed.

(** C2 (what the code does): for a [GET /ior:esm:/X] with
    [sec-fetch-dest: script] whose reference resolves to a path [p], the
    handler issues exactly one redirect, to ["/"] followed by [p] made
    relative to the web root, and then ends by throwing [NotFound]: the
    redirect is not the way the handler ends. *)
Theorem ior_script_fetch_redirects_then_throws
    (w w1 w2 : W) (req : request) (i : IOR) (p : string) :
  startsWith (url req) "/ior:esm:" = true ->
  sec_fetch_dest_is_script req = true ->
  exec (IOR_init (strip_leading_slash (url req))) w = (Ok i, w1) ->
  exec (IOR_load_path i) w1 = (Ok p, w2) ->
  redirects (log_of (run exec (handle_ior ONCE req) w))
    = ["/" ++ path_relative (cwd ONCE) (webRoot ONCE) p]
  /\ outcome_of (run exec (handle_ior ONCE req) w) = Thrown NotFound
  /\ world_of (run exec (handle_ior ONCE req) w) = w2.
Proof.
  intros Hpre Hhdr Hinit Hload.
  rewrite handle_ior_script by assumption.
  rewrite Hinit, Hload. repeat split.
Qed.

(** C7: a [GET /ior*] without [sec-fetch-dest: script], or whose
    reference does not resolve, fails with [NotFound], and no redirect is
    issued. *)
Theorem ior_fails_with_not_found_without_redirect (w : W) (req : request) :
  sec_fetch_dest_is_script req = false \/ unresolved exec w (url req) ->
  outcome_of (run exec (handle_ior ONCE req) w) = Thrown NotFound
  /\ redirects (log_of (run exec (handle_ior ONCE req) w)) = [].
Proof.
  intros [Hhdr | Hun].
  - rewrite handle_ior_not_script by assumption. split; reflexivity.
  - destruct (startsWith (url req) "/ior:esm:") eqn:Hpre.
    2: { rewrite handle_ior_unmarked by assumption. split; reflexivity. }
    destruct (sec_fetch_dest_is_script req) eqn:Hhdr.
    2: { rewrite handle_ior_not_script by assumption. split; reflexivity. }
    rewrite handle_ior_script by assumption.
    unfold unresolved in Hun.
    destruct (exec (IOR_init _) w) as [[i|e] w1].
    + destruct (exec (IOR_load_path i) w1) as [[p|e] w2]; [contradiction|].
      subst e. split; reflexivity.
    + subst e. split; reflexivity.
Qed.

(** C8 (amended): a [/ior*] URL that does not begin with [/ior:esm:]
    fails with [NotFound]; the handler does not hand it to the parser,
    issues no redirect and leaves the collaborators untouched. *)
Theorem ior_unmarked_url_fails_with_not_found (w : W) (req : request) :
  startsWith (url req) "/ior:esm:" = false ->
  outcome_of (run exec (handle_ior ONCE req) w) = Thrown NotFound
  /\ log_of (run exec (handle_ior ONCE req) w) = []
  /\ world_of (run exec (handle_ior ONCE req) w) = w.
Proof.
  intros Hpre. rewrite handle_ior_unmarked by assumption. repeat split.
Qed.

End IorHandler.

Lemma ior_script_fetch_redirects_then_throws_witness :
  let req := Reference.script_get "/ior:esm:/tla.EAM.Once[dev]" in
  let r := run Reference.exec (handle_ior Reference.ONCE req) Reference.w0 in
  startsWith (url req) "/ior:esm:" = true
  /\ sec_fetch_dest_is_script req = true
  /\ redirects (log_of r) = ["/EAMD.ucp/tla/EAM/Once/dev/index.mjs"]
  /\ outcome_of r = Thrown NotFound.
Proof.
  intros req r.
  split; [reflexivity|]. split; [reflexivity|].
  destruct (ior_script_fetch_redirects_then_throws Reference.exec Reference.ONCE
              Reference.w0 Reference.w0 Reference.w0 req
              (mkIOR [ior; esm] "/tla.EAM.Once[dev]")
              "/var/EAMD.ucp/Scenarios/localhost/EAMD.ucp/tla/EAM/Once/dev/index.mjs"
              eq_refl eq_refl eq_refl eq_refl) as (Hr & Ho & _).
  split; [exact Hr | exact Ho].
Defined.

Lemma ior_fails_with_not_found_without_redirect_witness :
  let plain := Reference.plain_get "/ior:esm:/tla.EAM.Once[dev]" in
  let missing := Reference.script_get "/ior:esm:/tla.EAM.Nothing[dev]" in
  (sec_fetch_dest_is_script plain = false
   /\ outcome_of (run Reference.exec (handle_ior Reference.ONCE plain) Reference.w0)
        = Thrown NotFound
   /\ redirects (log_of (run Reference.exec (handle_ior Reference.ONCE plain) Reference.w0))
        = [])
  /\ (unresolved Reference.exec Reference.w0 (url missing)
      /\ outcome_of (run Reference.exec (handle_ior Reference.ONCE missing) Reference.w0)
           = Thrown NotFound
      /\ redirects (log_of (run Reference.exec (handle_ior Reference.ONCE missing) Reference.w0))
           = []).
Proof.
  intros plain missing. split.
  - split; [reflexivity|].
    apply (ior_fails_with_not_found_without_redirect
             Reference.exec Reference.ONCE Reference.w0 plain).
    left. reflexivity.
  - split; [reflexivity|].
    apply (ior_fails_with_not_found_without_redirect
             Reference.exec Reference.ONCE Reference.w0 missing).
    right. reflexivity.
Defined.

Lemma ior_unmarked_url_fails_with_not_found_witness :
  let req := Reference.script_get "/ior:ude:/X" in
  startsWith (url req) "/ior:esm:" = false
  /\ outcome_of (run Reference.exec (handle_ior Reference.ONCE req) Reference.w0)
       = Thrown NotFound
  /\ log_of (run Reference.exec (handle_ior Reference.ONCE req) Reference.w0) = []
  /\ world_of (run Reference.exec (handle_ior Reference.ONCE req) Reference.w0)
       = Reference.w0.
Proof.
  intros req. split; [reflexivity|].
  apply (ior_unmarked_url_fails_with_not_found
           Reference.exec Reference.ONCE Reference.w0 req).
  reflexivity.
Defined.

(** C8 as stated fails: [/ior:ude:/X] is in the reference namespace and
    does not begin with the marker [/ior:esm:], yet the request fails with
    [NotFound], which is not [MalformedReference]. *)
Lemma ior_unmarked_url_is_not_malformed_reference :
  let req := Reference.script_get "/ior:ude:/X" in
  startsWith (url req) "/ior" = true
  /\ startsWith (url req) "/ior:esm:" = false
  /\ outcome_of (run Reference.exec (handle_ior Reference.ONCE req) Reference.w0)
       = Thrown NotFound
  /\ outcome_of (run Reference.exec (handle_ior Reference.ONCE req) Reference.w0)
       <> Thrown MalformedReference.
Proof.
  intros req. repeat split. discriminate.
Qed.

(** C3 (what the code does): on a script fetch of a resolvable reference
    the [GET /ior*] handler both sends a response, the redirect, and
    raises a failure, [NotFound]. *)
Theorem ior_handler_redirects_and_fails :
  let req := Reference.script_get "/ior:esm:/tla.EAM.Once[dev]" in
  let r := run Reference.exec (handle_ior Reference.ONCE req) Reference.w0 in
  log_of r =
    [Called (IOR_init "ior:esm:/tla.EAM.Once[dev]")
       (Ok (mkIOR [ior; esm] "/tla.EAM.Once[dev]"));
     Called (IOR_load_path (mkIOR [ior; esm] "/tla.EAM.Once[dev]"))
       (Ok "/var/EAMD.ucp/Scenarios/localhost/EAMD.ucp/tla/EAM/Once/dev/index.mjs");
     Replied (reply_redirect "/EAMD.ucp/tla/EAM/Once/dev/index.mjs")]
  /\ outcome_of r = Thrown NotFound
  /\ responses (log_of r) (outcome_of r) = 1
  /\ failures (outcome_of r) = 1.
Proof.
  intros req r. repeat split.
Qed.

(** ** Running programs step by step *)

Section RunFacts.

Context {W : Type}.
Variable exec : forall c : call, W -> result (result_of c) * W.

Lemma run_bind {A B : Type} (p : prog A) (f : A -> prog B) (w : W) :
  run exec (bind p f) w =
    match outcome_of (run exec p w) with
    | Returned a =>
        ((log_of (run exec p w)
            ++ log_of (run exec (f a) (world_of (run exec p w))))%list,
         outcome_of (run exec (f a) (world_of (run exec p w))),
         world_of (run exec (f a) (world_of (run exec p w))))
    | Thrown e => (log_of (run exec p w), Thrown e, world_of (run exec p w))
    end.
Proof.
  revert w. induction p as [a | e | a k IH | c k IH]; intros w; cbn.
  - destruct (run exec (f a) w) as [[log o] w']. reflexivity.
  - reflexivity.
  - rewrite IH. destruct (run exec k w) as [[log [a'|e]] w1]; reflexivity.
  - destruct (exec c w) as [[x|e] w1]; [|reflexivity].
    rewrite IH. destruct (run exec (k x) w1) as [[log [a'|e]] w2]; reflexivity.
Qed.

Lemma run_call {A : Type} (c : call) (f : result_of c -> prog A) (w : W) :
  run exec (bind (call_ c) f) w =
    match exec c w with
    | (Err e, w1) => ([Called c (Err e)], Thrown e, w1)
    | (Ok x, w1) =>
        (Called c (Ok x) :: log_of (run exec (f x) w1),
         outcome_of (run exec (f x) w1),
         world_of (run exec (f x) w1))
    end.
Proof.
  cbn. destruct (exec c w) as [[x|e] w1]; [|reflexivity].
  destruct (run exec (f x) w1) as [[log o] w']. reflexivity.
Qed.

Lemma run_reply {A : Type} (a : reply_action) (f : unit -> prog A) (w : W) :
  run exec (bind (reply a) f) w =
    (Replied a :: log_of (run exec (f tt) w),
     outcome_of (run exec (f tt) w),
     world_of (run exec (f tt) w)).
Proof.
  cbn. destruct (run exec (f tt) w) as [[log o] w']. reflexivity.
Qed.

(** The loop over the aliases: every alias is registered in order, or
    the loop stops at the first alias whose registration fails. *)
Lemma run_alias_loop (c : ref) (l : list string) (w : W) :
  (exists w',
      run exec (for_of l (fun a => call_ (PM_addAlias c a))) w
      = (map (fun a => Called (PM_addAlias c a) (Ok tt)) l, Returned tt, w'))
  \/ (exists l1 a l2 e w',
         l = (l1 ++ a :: l2)%list
         /\ run exec (for_of l (fun a => call_ (PM_addAlias c a))) w
            = ((map (fun a => Called (PM_addAlias c a) (Ok tt)) l1
                  ++ [Called (PM_addAlias c a) (Err e)])%list, Thrown e, w')).
Proof.
  revert w. induction l as [| a l IH]; intros w.
  - left. exists w. reflexivity.
  - cbn [for_of]. cbv beta. rewrite (run_call (PM_addAlias c a)).
    destruct (exec (PM_addAlias c a) w) as [[[]|e] w1].
    + destruct (IH w1) as [[w' Hrun] | (l1 & a' & l2 & e & w' & Hl & Hrun)].
      * left. exists w'. rewrite Hrun. reflexivity.
      * right. exists (a :: l1), a', l2, e, w'. split; [by rewrite Hl|].
        rewrite Hrun. reflexivity.
    + right. exists [], a, l, e, w1. split; reflexivity.
Qed.

End RunFacts.

(** ** The [/UDE] handler, for any collaborators *)

Ltac step_call :=
  match goal with
  | |- context [run ?ex (bind (call_ ?c) ?f) ?w] => rewrite (run_call ex c f w)
  end;
  cbn [log_of outcome_of world_of fst snd].

Ltac no_such_call :=
  let c := fresh "c" in
  let H := fresh "H" in
  intros c H; exfalso;
  cbn [log_of outcome_of world_of fst snd calls_of] in H;
  repeat (apply elem_of_cons in H as [H | H]; [discriminate H |]);
  apply elem_of_nil in H; exact H.

Lemma calls_of_app (l1 l2 : list entry) :
  calls_of (l1 ++ l2) = (calls_of l1 ++ calls_of l2)%list.
Proof.
  induction l1 as [| [a | c r] l1 IH]; cbn; [reflexivity | exact IH | by rewrite IH].
Qed.

Lemma calls_of_alias_ok (c : ref) (l : list string) :
  calls_of (map (fun a => Called (PM_addAlias c a) (Ok tt)) l) = map (PM_addAlias c) l.
Proof. induction l as [| a l IH]; cbn; [reflexivity | by rewrite IH]. Qed.

Lemma failure_of_alias_ok (c : ref) (l : list string) (rest : list entry) :
  failure_of (map (fun a => Called (PM_addAlias c a) (Ok tt)) l ++ rest) = failure_of rest.
Proof. induction l as [| a l IH]; cbn; [reflexivity | exact IH]. Qed.

Lemma create_not_in_aliases (c c' : ref) (l : list string) :
  PM_create c' ∉ map (PM_addAlias c) l.
Proof.
  intros Hin. apply list_elem_of_fmap in Hin as (a & Heq & _). discriminate Heq.
Qed.

Section UdeHandler.

Context {W : Type}.
Variable exec : forall c : call, W -> result (result_of c) * W.

Lemma run_create_tail (c : ref) (aliases : option (list string)) (w : W) :
  let r := run exec (create_tail c aliases) w in
  let registered :=
    map (fun a => Called (PM_addAlias c a) (Ok tt)) (default [] aliases) in
  (exists l1 a l2 e,
      default [] aliases = (l1 ++ a :: l2)%list
      /\ log_of r = (map (fun a => Called (PM_addAlias c a) (Ok tt)) l1
                       ++ [Called (PM_addAlias c a) (Err e)])%list
      /\ outcome_of r = Thrown e)
  \/ (exists e,
         log_of r = (registered ++ [Called (PM_create c) (Err e)])%list
         /\ outcome_of r = Thrown e)
  \/ (exists e,
         log_of r = (registered ++ [Called (PM_create c) (Ok tt);
                                    Called (PM_ucpComponentData c) (Err e)])%list
         /\ outcome_of r = Thrown e)
  \/ (exists data,
         log_of r = (registered ++ [Called (PM_create c) (Ok tt);
                                    Called (PM_ucpComponentData c) (Ok data)])%list
         /\ outcome_of r = Returned (Snapshot data)).
Proof.
  intros r registered. subst r registered. unfold create_tail.
  rewrite run_bind.
  assert (Hloop :
    (exists w', run exec
        match aliases with
        | Some aliases => for_of aliases (fun alias => call_ (PM_addAlias c alias))
        | None => Return tt
        end w
      = (map (fun a => Called (PM_addAlias c a) (Ok tt)) (default [] aliases),
         Returned tt, w'))
    \/ (exists l1 a l2 e w', default [] aliases = (l1 ++ a :: l2)%list
        /\ run exec
             match aliases with
             | Some aliases => for_of aliases (fun alias => call_ (PM_addAlias c alias))
             | None => Return tt
             end w
           = ((map (fun a => Called (PM_addAlias c a) (Ok tt)) l1
                 ++ [Called (PM_addAlias c a) (Err e)])%list, Thrown e, w'))).
  { destruct aliases as [l|]; [apply run_alias_loop|].
    left. exists w. reflexivity. }
  destruct Hloop as [[w' Hrun] | (l1 & a & l2 & e & w' & Hl & Hrun)]; rewrite Hrun;
    cbn [log_of outcome_of world_of fst snd].
  { right. step_call.
    destruct (exec (PM_create c) w') as [[[]|e] w1].
    2: { left. exists e. split; reflexivity. }
    step_call. right.
    destruct (exec (PM_ucpComponentData c) w1) as [[data|e] w2].
    - right. exists data. split; reflexivity.
    - left. exists e. split; reflexivity. }
  left. exists l1, a, l2, e. repeat split; assumption.
Qed.


Lemma method_post (req : request) :
  method req = "POST" ->
  String.eqb (method req) "GET" = false /\ String.eqb (method req) "POST" = true.
Proof. intros ->. split; reflexivity. Qed.

(** C4: in the create operation every alias of the payload is registered
    with [addAlias], in order and successfully, before [create()] is
    called on the same component; and when an alias registration fails
    the request ends with that failure and [create()] is never called. *)
Theorem aliases_are_registered_before_create (w : W) (req : request) :
  method req = "POST" ->
  let r := run exec (_handleUDE_CRUD req) w in
  (forall c, PM_create c ∈ calls_of (log_of r) ->
     exists udeData before rc rest,
       validated (log_of r) = Some udeData
       /\ log_of r =
            (before
               ++ map (fun a => Called (PM_addAlias c a) (Ok tt))
                      (default [] (alias udeData))
               ++ Called (PM_create c) rc :: rest)%list
       /\ forall c', PM_create c' ∉ calls_of before)
  /\ (forall c a, failure_of (log_of r) = Some (PM_addAlias c a) ->
        (forall c', PM_create c' ∉ calls_of (log_of r))
        /\ exists e, outcome_of r = Thrown e).
Proof.
  intros Hm r. subst r. unfold _handleUDE_CRUD.
  destruct (method_post req Hm) as [-> ->].
  rewrite run_reply. cbn [log_of outcome_of world_of fst snd].
  step_call. destruct (exec _ w) as [[udeData|e] w1].
  2: { split; [no_such_call | discriminate]. }
  step_call. destruct (exec _ w1) as [[cls|e] w2].
  2: { split; [no_such_call | discriminate]. }
  step_call. destruct (exec _ w2) as [[c0|e] w3].
  2: { split; [no_such_call | discriminate]. }
  step_call. destruct (exec _ w3) as [[[]|e] w4].
  2: { split; [no_such_call | discriminate]. }
  step_call. destruct (exec _ w4) as [[[]|e] w5].
  2: { split; [no_such_call | discriminate]. }
  cbn [log_of outcome_of world_of fst snd].
  change (run exec _ w5) with (run exec (create_tail c0 (alias udeData)) w5).
  destruct (run_create_tail c0 (alias udeData) w5)
    as [(l1 & a & l2 & e & Hl & Hlog & Ho) | [(e & Hlog & Ho)
        | [(e & Hlog & Ho) | (data & Hlog & Ho)]]];
    rewrite Hlog, Ho; split.
  1: { intros c Hin. exfalso. cbn [calls_of] in Hin.
       rewrite calls_of_app, calls_of_alias_ok in Hin.
       repeat (apply elem_of_cons in Hin as [Hin | Hin]; [discriminate Hin |]).
       apply elem_of_app in Hin as [Hin | Hin].
       - by apply create_not_in_aliases in Hin.
       - revert c Hin. no_such_call. }
  1: { intros c a' _. split; [| by exists e].
       intros c' Hin. cbn [calls_of] in Hin.
       rewrite calls_of_app, calls_of_alias_ok in Hin.
       repeat (apply elem_of_cons in Hin as [Hin | Hin]; [discriminate Hin |]).
       apply elem_of_app in Hin as [Hin | Hin].
       - by apply create_not_in_aliases in Hin.
       - revert c' Hin. no_such_call. }
  all: try (intros c a' Hf; exfalso; cbn [failure_of] in Hf;
            rewrite failure_of_alias_ok in Hf; discriminate Hf).
  all: intros c Hin; cbn [calls_of] in Hin;
    rewrite calls_of_app, calls_of_alias_ok in Hin;
    repeat (apply elem_of_cons in Hin as [Hin | Hin]; [discriminate Hin |]);
    apply elem_of_app in Hin as [Hin | Hin];
    [by apply create_not_in_aliases in Hin |];
    apply elem_of_cons in Hin as [Hin | Hin];
    [| exfalso; revert c Hin; no_such_call];
    injection Hin as ->;
    eexists udeData, [_; _; _; _; _; _], _, _;
    (split; [reflexivity | split; [reflexivity | no_such_call]]).
Qed.

Lemma post_validation_failure (w w1 : W) (req : request) (e : error) :
  method req = "POST" ->
  exec (validateUDEStructure (body req)) w = (Err e, w1) ->
  run exec (_handleUDE_CRUD req) w =
    ([Replied (reply_header "Content-Type" "application/json; charset=utf-8");
      Called (validateUDEStructure (body req)) (Err e)],
     Thrown e, w1).
Proof.
  intros Hm Hv. unfold _handleUDE_CRUD.
  destruct (method_post req Hm) as [-> ->].
  rewrite run_reply. step_call. rewrite Hv. reflexivity.
Qed.

(** C5: a [POST] whose body the validator rejects as a malformed payload
    fails with [MalformedPayload]; validation is the only call the
    handler makes, so no class is resolved, no component is instantiated,
    given a model, an id or an alias, or created, and the collaborators
    are left as validation left them. *)
Theorem malformed_payload_is_rejected_before_any_mutation
    (w w1 : W) (req : request) :
  method req = "POST" ->
  exec (validateUDEStructure (body req)) w = (Err MalformedPayload, w1) ->
  let r := run exec (_handleUDE_CRUD req) w in
  outcome_of r = Thrown MalformedPayload
  /\ calls_of (log_of r) = [validateUDEStructure (body req)]
  /\ world_of r = w1.
Proof.
  intros Hm Hv r. subst r.
  rewrite (post_validation_failure w w1 req MalformedPayload Hm Hv).
  repeat split.
Qed.

(** C9: in the read and in the delete operation the address is parsed
    once; the reference that is resolved is the parsed reference itself
    with [ude] appended to its protocol chain, the rest of it unchanged;
    the resolution follows the parse directly and nothing is parsed
    again. *)
Theorem ude_tag_is_pushed_onto_the_parsed_reference (w : W) (req : request) :
  method req = "GET" \/ method req = "DELETE" ->
  let r := run exec (_handleUDE_CRUD req) w in
  exists r0 rest,
    log_of r
    = Replied (reply_header "Content-Type" "application/json; charset=utf-8")
        :: Called (IOR_init (url req)) r0 :: rest
    /\ (forall c, c ∈ calls_of rest -> is_parse c = false)
    /\ match r0 with
       | Err _ => rest = []
       | Ok i =>
           exists r1 rest',
             rest = Called (IOR_load (protocol_push i ude)) r1 :: rest'
             /\ protocol (protocol_push i ude) = (protocol i ++ [ude])%list
             /\ pathName (protocol_push i ude) = pathName i
       end.
Proof.
  intros Hm r. subst r. unfold _handleUDE_CRUD.
  destruct Hm as [-> | ->]; cbn [String.eqb Ascii.eqb Bool.eqb];
    rewrite run_reply; cbn [log_of outcome_of world_of fst snd];
    step_call; destruct (exec _ w) as [[i|e] w1]; cbn [log_of fst snd].
  2, 4: (eexists (Err e), []; split; [reflexivity | split; [no_such_call | reflexivity]]).
  all: step_call; destruct (exec _ w1) as [[c0|e] w2]; cbn [log_of fst snd].
  2, 4: (eexists (Ok i), [_]; split; [reflexivity |];
         split; [intros c H; cbn [calls_of] in H;
                 apply list_elem_of_singleton in H as ->; reflexivity |];
         eexists _, []; repeat split).
  all: step_call; destruct (exec _ w2) as [[x|e] w3]; cbn [log_of fst snd].
  all: eexists (Ok i), [_; _]; (split; [reflexivity |]);
    (split; [intros c H; cbn [calls_of] in H;
             apply elem_of_cons in H as [-> | H]; [reflexivity |];
             apply list_elem_of_singleton in H as ->; reflexivity |]);
    eexists _, [_]; repeat split.
Qed.

Lemma method_put (req : request) :
  method req = "PUT" ->
  String.eqb (method req) "GET" = false
  /\ String.eqb (method req) "POST" = false
  /\ String.eqb (method req) "DELETE" = false
  /\ String.eqb (method req) "PUT" = true.
Proof. intros ->. repeat split. Qed.

(** C10: the update operation calls the validator, the parser, the
    resolver, the model setter and the snapshot getter, in this order,
    and nothing else: no [addAlias], [create()] or [delete()] of the
    persistence manager is called before the handler returns the
    snapshot. *)
Theorem put_makes_no_persistence_call (w : W) (req : request) :
  method req = "PUT" ->
  let r := run exec (_handleUDE_CRUD req) w in
  (forall c, c ∈ calls_of (log_of r) -> persistence_write c = false)
  /\ (forall p, outcome_of r = Returned p ->
        exists udeData i c data,
          log_of r =
            [Replied (reply_header "Content-Type" "application/json; charset=utf-8");
             Called (validateUDEStructure (body req)) (Ok udeData);
             Called (IOR_init (url req)) (Ok i);
             Called (IOR_load (protocol_push i ude)) (Ok c);
             Called (set_model c (particle_data udeData)) (Ok tt);
             Called (PM_ucpComponentData c) (Ok data)]
          /\ p = Snapshot data).
Proof.
  intros Hm r. subst r. unfold _handleUDE_CRUD.
  destruct (method_put req Hm) as (-> & -> & -> & ->).
  rewrite run_reply. cbn [log_of outcome_of world_of fst snd].
  step_call. destruct (exec _ w) as [[udeData|e] w1];
    cbn [log_of outcome_of world_of fst snd].
  2: { split; [| discriminate]. intros c H. cbn [calls_of] in H.
       apply list_elem_of_singleton in H as ->. reflexivity. }
  step_call. destruct (exec _ w1) as [[i|e] w2];
    cbn [log_of outcome_of world_of fst snd].
  2: { split; [| discriminate]. intros c H. cbn [calls_of] in H.
       repeat (apply elem_of_cons in H as [-> | H]; [reflexivity |]).
       by apply elem_of_nil in H. }
  step_call. destruct (exec _ w2) as [[c0|e] w3];
    cbn [log_of outcome_of world_of fst snd].
  2: { split; [| discriminate]. intros c H. cbn [calls_of] in H.
       repeat (apply elem_of_cons in H as [-> | H]; [reflexivity |]).
       by apply elem_of_nil in H. }
  step_call. destruct (exec _ w3) as [[[]|e] w4];
    cbn [log_of outcome_of world_of fst snd].
  2: { split; [| discriminate]. intros c H. cbn [calls_of] in H.
       repeat (apply elem_of_cons in H as [-> | H]; [reflexivity |]).
       by apply elem_of_nil in H. }
  step_call. destruct (exec _ w4) as [[data|e] w5];
    cbn [log_of outcome_of world_of fst snd].
  2: { split; [| discriminate]. intros c H. cbn [calls_of] in H.
       repeat (apply elem_of_cons in H as [-> | H]; [reflexivity |]).
       by apply elem_of_nil in H. }
  split.
  - intros c H. cbn [calls_of] in H.
    repeat (apply elem_of_cons in H as [-> | H]; [reflexivity |]).
    by apply elem_of_nil in H.
  - intros p Hp. injection Hp as <-.
    exists udeData, i, c0, data. split; reflexivity.
Qed.

End UdeHandler.

Lemma aliases_are_registered_before_create_witness :
  let req := Reference.post Scenario.second_body in
  let r := run Reference.exec (_handleUDE_CRUD req) Scenario.w_created in
  method req = "POST"
  /\ failure_of (log_of r) = Some (PM_addAlias 1 "a")
  /\ (forall c, PM_create c ∉ calls_of (log_of r))
  /\ (exists e, outcome_of r = Thrown e)
  /\ Reference.durable (world_of r) = Reference.durable Scenario.w_created.
Proof.
  intros req r. split; [reflexivity|]. split; [reflexivity|].
  destruct (aliases_are_registered_before_create
              Reference.exec Scenario.w_created req eq_refl) as [_ Hfail].
  destruct (Hfail 1 "a" eq_refl) as [Hno He].
  split; [exact Hno|]. split; [exact He | reflexivity].
Defined.

Lemma malformed_payload_is_rejected_before_any_mutation_witness :
  let req := Reference.post Scenario.untyped_body in
  let r := run Reference.exec (_handleUDE_CRUD req) Reference.w0 in
  method req = "POST"
  /\ Reference.exec (validateUDEStructure (body req)) Reference.w0
     = (Err MalformedPayload, Reference.w0)
  /\ (outcome_of r = Thrown MalformedPayload
      /\ calls_of (log_of r) = [validateUDEStructure (body req)]
      /\ world_of r = Reference.w0)
  /\ Reference.registry (world_of r) !! "Z" = None.
Proof.
  intros req r. split; [reflexivity|]. split; [reflexivity|].
  split; [| reflexivity].
  apply (malformed_payload_is_rejected_before_any_mutation
           Reference.exec Reference.w0 Reference.w0 req); reflexivity.
Defined.

Lemma ude_tag_is_pushed_onto_the_parsed_reference_witness :
  let req := Reference.plain_get "/UDE/X" in
  let r := run Reference.exec (_handleUDE_CRUD req) Scenario.w_created in
  (method req = "GET" \/ method req = "DELETE")
  /\ calls_of (log_of r)
     = [IOR_init "/UDE/X"; IOR_load (mkIOR [ude] "X"); PM_ucpComponentData 0]
  /\ exists r0 rest,
      log_of r
      = Replied (reply_header "Content-Type" "application/json; charset=utf-8")
          :: Called (IOR_init (url req)) r0 :: rest
      /\ (forall c, c ∈ calls_of rest -> is_parse c = false)
      /\ match r0 with
         | Err _ => rest = []
         | Ok i =>
             exists r1 rest',
               rest = Called (IOR_load (protocol_push i ude)) r1 :: rest'
               /\ protocol (protocol_push i ude) = (protocol i ++ [ude])%list
               /\ pathName (protocol_push i ude) = pathName i
         end.
Proof.
  intros req r. split; [left; reflexivity|]. split; [reflexivity|].
  apply (ude_tag_is_pushed_onto_the_parsed_reference
           Reference.exec Scenario.w_created req).
  left. reflexivity.
Defined.

Lemma put_makes_no_persistence_call_witness :
  let req := Reference.put "/UDE/a" Scenario.update_body in
  let r := run Reference.exec (_handleUDE_CRUD req) Scenario.w_created in
  method req = "PUT"
  /\ (forall c, c ∈ calls_of (log_of r) -> persistence_write c = false)
  /\ calls_of (log_of r)
     = [validateUDEStructure (body req); IOR_init "/UDE/a";
        IOR_load (mkIOR [ude] "a"); set_model 0 (JObject [("foo", JNumber 9)]);
        PM_ucpComponentData 0]
  /\ Reference.durable (world_of r) = Reference.durable Scenario.w_created.
Proof.
  intros req r. split; [reflexivity|].
  destruct (put_makes_no_persistence_call
              Reference.exec Scenario.w_created req eq_refl) as [Hno _].
  split; [exact Hno|]. split; reflexivity.
Defined.

(** ** The [/UDE] handler over the reference collaborators *)

Section OverReference.

Import Reference.

Lemma parse_ude (name : string) :
  parse ("/UDE/" ++ name) = Ok {| protocol := []; pathName := name |}.
Proof. destruct name; reflexivity. Qed.

Lemma lookup_register_all_head {V : Type} (n : string) (names : list string)
    (v : V) (m : gmap string V) :
  register_all (n :: names) v m !! n = Some v.
Proof. cbn. apply lookup_insert_eq. Qed.

(** A read of a registered, live component returns its snapshot and
    leaves the world as it is. *)
Lemma read_registered (w : world) (req : request) (name : string)
    (c : ref) (comp : component) :
  method req = "GET" ->
  url req = "/UDE/" ++ name ->
  registry w !! name = Some c ->
  heap w !! c = Some comp ->
  run exec (_handleUDE_CRUD req) w =
    ([Replied (reply_header "Content-Type" "application/json; charset=utf-8");
      Called (IOR_init (url req)) (Ok (mkIOR [] name));
      Called (IOR_load (mkIOR [ude] name)) (Ok c);
      Called (PM_ucpComponentData c) (Ok (snapshot comp))],
     Returned (Snapshot (snapshot comp)), w).
Proof.
  intros Hm Hu Hreg Hheap. unfold _handleUDE_CRUD. rewrite Hm, Hu.
  cbn [String.eqb Ascii.eqb Bool.eqb].
  rewrite run_reply. step_call.
  change (exec (IOR_init ("/UDE/" ++ name)) w) with (parse ("/UDE/" ++ name), w).
  rewrite parse_ude. cbn [log_of outcome_of world_of fst snd].
  step_call.
  change (exec (IOR_load _) w) with (load_component (mkIOR [ude] name) w).
  unfold load_component. cbn [protocol pathName last]. rewrite Hreg.
  cbn [log_of outcome_of world_of fst snd].
  step_call.
  change (exec (PM_ucpComponentData c) w)
    with (with_component c w (fun comp => (Ok (snapshot comp), w))).
  unfold with_component. rewrite Hheap. reflexivity.
Qed.

Lemma exec_addAlias (c : ref) (a : string) (w : world) (comp : component) :
  heap w !! c = Some comp ->
  exec (PM_addAlias c a) w =
    if free_for c w a then
      if bool_decide (a ∈ comp_alias comp) then (Ok tt, w)
      else (Ok tt, update c (mkComponent (comp_class comp) (comp_id comp)
                               (comp_alias comp ++ [a]) (comp_model comp)) w)
    else (Err (OtherFailure "alias in use"), w).
Proof. intros H. cbn. unfold with_component. rewrite H. reflexivity. Qed.

(** Registering aliases changes neither the id nor the model of the
    component, and neither the registry nor durable storage. *)
Lemma alias_loop_keeps_model (c : ref) (l : list string) :
  forall (w : world) (comp : component),
    heap w !! c = Some comp ->
    outcome_of (run exec (for_of l (fun a => call_ (PM_addAlias c a))) w)
      = Returned tt ->
    let w' := world_of (run exec (for_of l (fun a => call_ (PM_addAlias c a))) w) in
    exists comp',
      heap w' !! c = Some comp'
      /\ comp_id comp' = comp_id comp
      /\ comp_model comp' = comp_model comp
      /\ registry w' = registry w
      /\ durable w' = durable w.
Proof.
  induction l as [| a l IH]; intros w comp Hheap Hret w'; subst w'.
  - exists comp. cbn. repeat split; assumption.
  - revert Hret. cbn [for_of]. cbv beta.
    rewrite (run_call exec (PM_addAlias c a)).
    rewrite (exec_addAlias c a w comp Hheap).
    destruct (free_for c w a); [| discriminate].
    destruct (bool_decide (a ∈ comp_alias comp));
      cbn [log_of outcome_of world_of fst snd]; intros Hret.
    + apply (IH w comp Hheap Hret).
    + set (comp1 := mkComponent (comp_class comp) (comp_id comp)
                      (comp_alias comp ++ [a]) (comp_model comp)) in *.
      destruct (IH (update c comp1 w) comp1) as (comp' & H1 & H2 & H3 & H4 & H5).
      * cbn. apply lookup_insert_eq.
      * exact Hret.
      * exists comp'. repeat split; assumption.
Qed.

Lemma exec_set_model (c : ref) (m : json) (w : world) (comp : component) :
  heap w !! c = Some comp ->
  exec (set_model c m) w =
    (Ok tt, update c (mkComponent (comp_class comp) (comp_id comp)
                                  (comp_alias comp) m) w).
Proof. intros H. cbn. unfold with_component. rewrite H. reflexivity. Qed.

Lemma exec_set_IOR_id (c : ref) (i : option string) (w : world) (comp : component) :
  heap w !! c = Some comp ->
  exec (set_IOR_id c i) w =
    (Ok tt, update c (mkComponent (comp_class comp) i
                                  (comp_alias comp) (comp_model comp)) w).
Proof. intros H. cbn. unfold with_component. rewrite H. reflexivity. Qed.

Lemma exec_ucpComponentData (c : ref) (w : world) (comp : component) :
  heap w !! c = Some comp ->
  exec (PM_ucpComponentData c) w = (Ok (snapshot comp), w).
Proof. intros H. cbn. unfold with_component. rewrite H. reflexivity. Qed.

Lemma exec_create (c : ref) (w : world) (comp : component) :
  heap w !! c = Some comp ->
  exec (PM_create c) w =
    if forallb (free_for c w) (names_of comp) then
      (Ok tt, set_stores (register_all (names_of comp) c (registry w))
                         (register_all (names_of comp) (snapshot comp) (durable w))
                         w)
    else (Err (OtherFailure "already exists"), w).
Proof. intros H. cbn. unfold with_component. rewrite H. reflexivity. Qed.

Lemma heap_update (c : ref) (comp : component) (w : world) :
  heap (update c comp w) !! c = Some comp.
Proof. cbn. apply lookup_insert_eq. Qed.

(** From the alias loop on, a create that returns has registered the
    component under its id and returns its snapshot; its model is the
    one it had before the loop. *)
Lemma create_tail_registers (c : ref) (aliases : option (list string))
    (w : world) (comp : component) (X : string) (p : payload) :
  heap w !! c = Some comp ->
  comp_id comp = Some X ->
  outcome_of (run exec (create_tail c aliases) w) = Returned p ->
  exists comp',
    registry (world_of (run exec (create_tail c aliases) w)) !! X = Some c
    /\ heap (world_of (run exec (create_tail c aliases) w)) !! c = Some comp'
    /\ comp_model comp' = comp_model comp
    /\ p = Snapshot (snapshot comp').
Proof.
  intros Hheap Hid. unfold create_tail. rewrite run_bind.
  assert (Hloop :
    outcome_of (run exec
        match aliases with
        | Some aliases => for_of aliases (fun alias => call_ (PM_addAlias c alias))
        | None => Return tt
        end w) = Returned tt ->
    exists comp',
      heap (world_of (run exec
        match aliases with
        | Some aliases => for_of aliases (fun alias => call_ (PM_addAlias c alias))
        | None => Return tt
        end w)) !! c = Some comp'
      /\ comp_id comp' = comp_id comp
      /\ comp_model comp' = comp_model comp).
  { destruct aliases as [l|].
    - intros Hret.
      destruct (alias_loop_keeps_model c l w comp Hheap Hret)
        as (comp' & H1 & H2 & H3 & _).
      exists comp'. repeat split; assumption.
    - intros _. exists comp. cbn. repeat split. exact Hheap. }
  destruct (run exec _ w) as [[log [[]|e]] w1];
    cbn [log_of outcome_of world_of fst snd] in *; [| discriminate].
  destruct (Hloop eq_refl) as (comp' & Hheap' & Hid' & Hmodel').
  step_call. rewrite (exec_create c w1 comp' Hheap').
  destruct (forallb _ _); [| discriminate].
  cbn [log_of outcome_of world_of fst snd].
  step_call.
  rewrite (exec_ucpComponentData c _ comp') by exact Hheap'.
  cbn [log_of outcome_of world_of fst snd run].
  intros Hp. injection Hp as <-.
  exists comp'. split; [| repeat split; assumption].
  cbn [registry set_stores]. unfold names_of. rewrite Hid', Hid.
  apply lookup_register_all_head.
Qed.

(** A create that returns has registered a live component under the id
    of the payload, with the model of the payload, and returns its
    snapshot. *)
Lemma create_registers (w : world) (req : request) (udeData : UDEStructure)
    (X : string) (p : payload) :
  method req = "POST" ->
  validate (body req) = Ok udeData ->
  id udeData = Some X ->
  outcome_of (run exec (_handleUDE_CRUD req) w) = Returned p ->
  exists c comp,
    registry (world_of (run exec (_handleUDE_CRUD req) w)) !! X = Some c
    /\ heap (world_of (run exec (_handleUDE_CRUD req) w)) !! c = Some comp
    /\ comp_model comp = particle_data udeData
    /\ p = Snapshot (snapshot comp).
Proof.
  intros Hm Hv Hid. unfold _handleUDE_CRUD.
  destruct (method_post req Hm) as [-> ->].
  rewrite run_reply. cbn [log_of outcome_of world_of fst snd].
  step_call.
  change (exec (validateUDEStructure (body req)) w) with (validate (body req), w).
  rewrite Hv. cbn [log_of outcome_of world_of fst snd].
  step_call.
  change (exec (DefaultIOR_load (typeIOR udeData)) w)
    with (load_class (typeIOR udeData) w).
  unfold load_class. destruct (bool_decide _); [| discriminate].
  cbn [log_of outcome_of world_of fst snd].
  step_call.
  change (exec (new_component (typeIOR udeData)) w)
    with (let '(c, w1) := alloc (mkComponent (typeIOR udeData) None [] (JObject [])) w
          in (Ok c, w1)).
  destruct (alloc _ w) as [c w1] eqn:Halloc.
  assert (Hheap1 : heap w1 !! c
                   = Some (mkComponent (typeIOR udeData) None [] (JObject []))).
  { unfold alloc in Halloc. injection Halloc as <- <-. cbn. apply lookup_insert_eq. }
  cbn [log_of outcome_of world_of fst snd].
  step_call. rewrite (exec_set_model c _ w1 _ Hheap1).
  cbn [log_of outcome_of world_of fst snd comp_class comp_id comp_alias comp_model].
  step_call. rewrite (exec_set_IOR_id c _ _ _ (heap_update c _ w1)).
  cbn [log_of outcome_of world_of fst snd comp_class comp_id comp_alias comp_model].
  change (run exec _ ?w) with (run exec (create_tail c (alias udeData)) w).
  intros Hp.
  destruct (create_tail_registers c (alias udeData) _
              (mkComponent (typeIOR udeData) (id udeData) [] (particle_data udeData))
              X p (heap_update c _ _) Hid Hp) as (comp' & H1 & H2 & H3 & H4).
  exists c, comp'. repeat split; assumption.
Qed.

(** C1: a create with the body [{typeReference: T, model: M, id: X}] that
    succeeds, followed by a read of [/UDE/X], returns a snapshot whose
    model is [M]. *)
Theorem create_then_read_round_trip
    (w : world) (T : string) (M : json) (X : string)
    (create read : request) (p : payload) :
  method create = "POST" ->
  body create = Some (create_body T M X) ->
  method read = "GET" ->
  url read = "/UDE/" ++ X ->
  outcome_of (run exec (_handleUDE_CRUD create) w) = Returned p ->
  exists data,
    outcome_of (run exec (_handleUDE_CRUD read)
                    (world_of (run exec (_handleUDE_CRUD create) w)))
      = Returned (Snapshot data)
    /\ particle_data data = M.
Proof.
  intros Hmc Hbc Hmr Hur Hp.
  destruct (create_registers w create (mkUDE T M (Some X) None) X p Hmc)
    as (c & comp & Hreg & Hheap & Hmodel & _); [| reflexivity | exact Hp |].
  { rewrite Hbc. reflexivity. }
  rewrite (read_registered _ read X c comp Hmr Hur Hreg Hheap).
  exists (snapshot comp). split; [reflexivity | exact Hmodel].
Qed.

(** C6: an update of an existing component, with a payload that
    validates, leaves the component with exactly the model of the
    payload, so that a key the payload's model does not have is not in
    the stored model either, and with the aliases and the id it had; the
    registry is as resolution left it, and the snapshot returned is the
    one of the updated component. *)
Theorem update_replaces_the_model
    (w w1 : world) (req : request) (udeData : UDEStructure) (i : IOR)
    (c : ref) (comp : component) :
  method req = "PUT" ->
  validate (body req) = Ok udeData ->
  parse (url req) = Ok i ->
  load_component (protocol_push i ude) w = (Ok c, w1) ->
  heap w1 !! c = Some comp ->
  let r := run exec (_handleUDE_CRUD req) w in
  exists comp',
    heap (world_of r) !! c = Some comp'
    /\ comp_model comp' = particle_data udeData
    /\ (forall key, json_get key (comp_model comp')
                    = json_get key (particle_data udeData))
    /\ comp_alias comp' = comp_alias comp
    /\ comp_id comp' = comp_id comp
    /\ registry (world_of r) = registry w1
    /\ durable (world_of r) = durable w1
    /\ outcome_of r = Returned (Snapshot (snapshot comp')).
Proof.
  intros Hm Hv Hparse Hload Hheap r. subst r. unfold _handleUDE_CRUD.
  destruct (method_put req Hm) as (-> & -> & -> & ->).
  rewrite run_reply. cbn [log_of outcome_of world_of fst snd].
  step_call.
  change (exec (validateUDEStructure (body req)) w) with (validate (body req), w).
  rewrite Hv. cbn [log_of outcome_of world_of fst snd].
  step_call.
  change (exec (IOR_init (url req)) w) with (parse (url req), w).
  rewrite Hparse. cbn [log_of outcome_of world_of fst snd].
  step_call.
  change (exec (IOR_load (protocol_push i ude)) w)
    with (load_component (protocol_push i ude) w).
  rewrite Hload. cbn [log_of outcome_of world_of fst snd].
  step_call. rewrite (exec_set_model c _ w1 comp Hheap).
  cbn [log_of outcome_of world_of fst snd].
  step_call. rewrite (exec_ucpComponentData c _ _ (heap_update c _ w1)).
  cbn [log_of outcome_of world_of fst snd run].
  eexists. split; [apply heap_update |]. repeat split.
Qed.

End OverReference.

Lemma create_then_read_round_trip_witness :
  let M := JObject [("foo", JNumber 1); ("bar", JNumber 2)] in
  let create := Reference.post (Reference.create_body Reference.Thing M "X") in
  let read := Reference.plain_get "/UDE/X" in
  outcome_of (run Reference.exec (_handleUDE_CRUD create) Reference.w0)
    = Returned (Snapshot (mkUDE Reference.Thing M (Some "X") (Some [])))
  /\ exists data,
      outcome_of (run Reference.exec (_handleUDE_CRUD read)
                      (world_of (run Reference.exec (_handleUDE_CRUD create)
                                     Reference.w0)))
        = Returned (Snapshot data)
      /\ particle_data data = M.
Proof.
  intros M create read. split; [reflexivity |].
  apply (create_then_read_round_trip Reference.w0 Reference.Thing M "X" create read
           (Snapshot (mkUDE Reference.Thing M (Some "X") (Some []))));
    reflexivity.
Defined.

Lemma update_replaces_the_model_witness :
  let req := Reference.put "/UDE/a" Scenario.update_body in
  let r := run Reference.exec (_handleUDE_CRUD req) Scenario.w_created in
  Reference.heap Scenario.w_created !! 0
    = Some (Reference.mkComponent Reference.Thing (Some "X") ["a"]
              (JObject [("foo", JNumber 1); ("bar", JNumber 2)]))
  /\ Reference.heap (world_of r) !! 0
     = Some (Reference.mkComponent Reference.Thing (Some "X") ["a"]
               (JObject [("foo", JNumber 9)]))
  /\ exists comp',
      Reference.heap (world_of r) !! 0 = Some comp'
      /\ Reference.comp_model comp' = JObject [("foo", JNumber 9)]
      /\ json_get "bar" (Reference.comp_model comp') = None
      /\ Reference.comp_alias comp' = ["a"].
Proof.
  intros req r. split; [reflexivity |]. split; [reflexivity |].
  destruct (update_replaces_the_model Scenario.w_created Scenario.w_created req
              (mkUDE Reference.Thing (JObject [("foo", JNumber 9)]) None None)
              (mkIOR [] "a") 0
              (Reference.mkComponent Reference.Thing (Some "X") ["a"]
                 (JObject [("foo", JNumber 1); ("bar", JNumber 2)]))
              eq_refl eq_refl eq_refl eq_refl eq_refl)
    as (comp' & Hheap & Hmodel & Hkeys & Halias & _).
  exists comp'. split; [exact Hheap |]. split; [exact Hmodel |].
  split; [| exact Halias]. rewrite (Hkeys "bar"). reflexivity.
Defined.

(** ** One terminal outcome *)

Lemma redirects_alias_ok (c : ref) (l : list string) (rest : list entry) :
  redirects (map (fun a => Called (PM_addAlias c a) (Ok tt)) l ++ rest)
  = redirects rest.
Proof. induction l as [| a l IH]; cbn; [reflexivity | exact IH]. Qed.

Section OneOutcome.

Context {W : Type}.
Variable exec : forall c : call, W -> result (result_of c) * W.

(** [_handleUDE_CRUD] never acts on the reply beyond setting the content
    type: whatever the method and the collaborators, it ends by returning
    one payload or by throwing one failure, and sends nothing else. *)
Lemma handleUDE_one_terminal_outcome (w : W) (req : request) :
  let r := run exec (_handleUDE_CRUD req) w in
  redirects (log_of r) = []
  /\ responses (log_of r) (outcome_of r) + failures (outcome_of r) = 1.
Proof.
  intros r.
  assert (Hred : redirects (log_of r) = []).
  { subst r. unfold _handleUDE_CRUD.
    rewrite run_reply. cbn [log_of outcome_of world_of fst snd redirects].
    destruct (String.eqb (method req) "GET").
    { repeat (step_call; destruct (exec _ _) as [[?|?] ?];
              cbn [log_of outcome_of world_of fst snd redirects run];
              [| reflexivity]).
      reflexivity. }
    destruct (String.eqb (method req) "POST").
    { step_call. destruct (exec _ w) as [[udeData|?] w1];
        cbn [log_of outcome_of world_of fst snd redirects]; [| reflexivity].
      step_call. destruct (exec _ w1) as [[cls|?] w2];
        cbn [log_of outcome_of world_of fst snd redirects]; [| reflexivity].
      step_call. destruct (exec _ w2) as [[c|?] w3];
        cbn [log_of outcome_of world_of fst snd redirects]; [| reflexivity].
      step_call. destruct (exec _ w3) as [[[]|?] w4];
        cbn [log_of outcome_of world_of fst snd redirects]; [| reflexivity].
      step_call. destruct (exec _ w4) as [[[]|?] w5];
        cbn [log_of outcome_of world_of fst snd redirects]; [| reflexivity].
      change (run exec _ w5) with (run exec (create_tail c (alias udeData)) w5).
      destruct (run_create_tail exec c (alias udeData) w5)
        as [(l1 & a & l2 & e & _ & Hlog & _) | [(e & Hlog & _)
            | [(e & Hlog & _) | (data & Hlog & _)]]];
        rewrite Hlog; apply redirects_alias_ok. }
    destruct (String.eqb (method req) "DELETE").
    { repeat (step_call; destruct (exec _ _) as [[?|?] ?];
              cbn [log_of outcome_of world_of fst snd redirects run];
              [| reflexivity]).
      reflexivity. }
    destruct (String.eqb (method req) "PUT").
    { repeat (step_call; destruct (exec _ _) as [[?|?] ?];
              cbn [log_of outcome_of world_of fst snd redirects run];
              [| reflexivity]).
      reflexivity. }
    reflexivity. }
  split; [exact Hred |].
  unfold responses. rewrite Hred. destruct (outcome_of r); reflexivity.
Qed.

End OneOutcome.

(** * Further properties of the handlers *)

Section UdeHandlerMore.

Context {W : Type}.
Variable exec : forall c : call, W -> result (result_of c) * W.

(** X1: a request whose method is none of [GET], [POST], [DELETE], [PUT]
    (the comparison is exact: [get] is none of them) gets the content type
    set, then fails with [MethodNotImplemented]; no collaborator is called
    and the world is as it was. *)
Theorem unimplemented_verb_calls_nothing (w : W) (req : request) :
  implemented_verb (method req) = false ->
  run exec (_handleUDE_CRUD req) w =
    ([Replied (reply_header "Content-Type" "application/json; charset=utf-8")],
     Thrown MethodNotImplemented, w).
Proof.
  unfold implemented_verb. intros H.
  apply orb_false_elim in H as [H Hput].
  apply orb_false_elim in H as [H Hdel].
  apply orb_false_elim in H as [Hget Hpost].
  unfold _handleUDE_CRUD. rewrite Hget, Hpost, Hdel, Hput. reflexivity.
Qed.

End UdeHandlerMore.

Lemma unimplemented_verb_calls_nothing_witness :
  let req := mkRequest "get" "/UDE/X" ∅ None in
  implemented_verb (method req) = false
  /\ run Reference.exec (_handleUDE_CRUD req) Scenario.w_created =
       ([Replied (reply_header "Content-Type" "application/json; charset=utf-8")],
        Thrown MethodNotImplemented, Scenario.w_created).
Proof.
  intros req. split; [reflexivity |].
  apply (unimplemented_verb_calls_nothing Reference.exec Scenario.w_created req).
  reflexivity.
Defined.

Lemma reply_actions_alias_ok (c : ref) (l : list string) (rest : list entry) :
  reply_actions (map (fun a => Called (PM_addAlias c a) (Ok tt)) l ++ rest)
  = reply_actions rest.
Proof. induction l as [| a l IH]; cbn; [reflexivity | exact IH]. Qed.

Lemma thrown_by_snoc (log : list entry) (c : call) (e : error) :
  thrown_by (log ++ [Called c (Err e)]) = Some e.
Proof. unfold thrown_by. rewrite last_snoc. reflexivity. Qed.

(** One step of a run: the next call is made and its result is named; a
    result of type [unit] is read as [tt]. *)
Ltac next_call x e w :=
  match goal with
  | |- context [run ?ex (bind (call_ ?c) ?f) ?w0] =>
      rewrite (run_call ex c f w0);
      destruct (ex c w0) as [[x | e] w] eqn:?;
      cbn [log_of outcome_of world_of fst snd]
  end.

Section UdeHandlerShapes.

Context {W : Type}.
Variable exec : forall c : call, W -> result (result_of c) * W.

(** X2: whatever the method, the body and the collaborators do, the one
    action of [_handleUDE_CRUD] on the reply is to set the content type to
    JSON: it does so also when the request then fails, and it never sends
    or redirects. *)
Theorem ude_reply_is_only_given_its_content_type (w : W) (req : request) :
  reply_actions (log_of (run exec (_handleUDE_CRUD req) w))
  = [reply_header "Content-Type" "application/json; charset=utf-8"].
Proof.
  unfold _handleUDE_CRUD.
  rewrite run_reply. cbn [log_of outcome_of world_of fst snd reply_actions].
  f_equal.
  destruct (String.eqb (method req) "GET").
  { next_call i e w1; [| reflexivity].
    next_call c e w2; [| reflexivity].
    next_call d e w3; reflexivity. }
  destruct (String.eqb (method req) "POST").
  { next_call udeData e w1; [| reflexivity].
    next_call cls e w2; [| reflexivity].
    next_call c e w3; [| reflexivity].
    next_call u1 e w4; [| reflexivity].
    next_call u2 e w5; [| reflexivity].
    change (run exec _ w5) with (run exec (create_tail c (alias udeData)) w5).
    destruct (run_create_tail exec c (alias udeData) w5)
      as [(l1 & a & l2 & e & _ & Hlog & _) | [(e & Hlog & _)
          | [(e & Hlog & _) | (data & Hlog & _)]]];
      rewrite Hlog; cbn [reply_actions]; apply reply_actions_alias_ok. }
  destruct (String.eqb (method req) "DELETE").
  { next_call i e w1; [| reflexivity].
    next_call c e w2; [| reflexivity].
    next_call d e w3; reflexivity. }
  destruct (String.eqb (method req) "PUT").
  { next_call udeData e w1; [| reflexivity].
    next_call i e w2; [| reflexivity].
    next_call c e w3; [| reflexivity].
    next_call u e w4; [| reflexivity].
    next_call d e w5; reflexivity. }
  reflexivity.
Qed.

(** How a request fails: the last entry of the log is the call that
    failed, or no branch was taken. *)
Lemma ude_failure_shape (w : W) (req : request) (e : error) :
  outcome_of (run exec (_handleUDE_CRUD req) w) = Thrown e ->
  thrown_by (log_of (run exec (_handleUDE_CRUD req) w)) = Some e
  \/ (implemented_verb (method req) = false
      /\ e = MethodNotImplemented
      /\ log_of (run exec (_handleUDE_CRUD req) w)
         = [Replied (reply_header "Content-Type" "application/json; charset=utf-8")]).
Proof.
  unfold _handleUDE_CRUD, implemented_verb.
  rewrite run_reply. cbn [log_of outcome_of world_of fst snd].
  destruct (String.eqb (method req) "GET").
  { next_call i e1 w1; [| intros [= <-]; left; reflexivity].
    next_call c e1 w2; [| intros [= <-]; left; reflexivity].
    next_call d e1 w3; [discriminate | intros [= <-]; left; reflexivity]. }
  destruct (String.eqb (method req) "POST").
  { next_call udeData e1 w1; [| intros [= <-]; left; reflexivity].
    next_call cls e1 w2; [| intros [= <-]; left; reflexivity].
    next_call c e1 w3; [| intros [= <-]; left; reflexivity].
    next_call u1 e1 w4; [| intros [= <-]; left; reflexivity].
    next_call u2 e1 w5; [| intros [= <-]; left; reflexivity].
    change (run exec _ w5) with (run exec (create_tail c (alias udeData)) w5).
    destruct (run_create_tail exec c (alias udeData) w5)
      as [(l1 & a & l2 & e1 & _ & Hlog & Ho) | [(e1 & Hlog & Ho)
          | [(e1 & Hlog & Ho) | (data & Hlog & Ho)]]];
      rewrite Hlog, Ho; [| | | discriminate]; intros [= <-]; left.
    - rewrite !app_comm_cons. apply thrown_by_snoc.
    - rewrite !app_comm_cons. apply thrown_by_snoc.
    - rewrite !app_comm_cons.
      change [?x; ?y] with ([x] ++ [y])%list. rewrite app_assoc.
      apply thrown_by_snoc. }
  destruct (String.eqb (method req) "DELETE").
  { next_call i e1 w1; [| intros [= <-]; left; reflexivity].
    next_call c e1 w2; [| intros [= <-]; left; reflexivity].
    next_call d e1 w3; [discriminate | intros [= <-]; left; reflexivity]. }
  destruct (String.eqb (method req) "PUT").
  { next_call udeData e1 w1; [| intros [= <-]; left; reflexivity].
    next_call i e1 w2; [| intros [= <-]; left; reflexivity].
    next_call c e1 w3; [| intros [= <-]; left; reflexivity].
    next_call u e1 w4; [| intros [= <-]; left; reflexivity].
    next_call d e1 w5; [discriminate | intros [= <-]; left; reflexivity]. }
  intros [= <-]. right. repeat split.
Qed.


(** X3: [_handleUDE_CRUD] neither catches nor rewrites a failure.  When a
    request fails, either the last entry of the log is the call that
    failed, and the request fails with exactly its failure, or no call was
    made at all, the verb is not implemented and the failure is
    [MethodNotImplemented]. *)
Theorem ude_failures_pass_through_unchanged (w : W) (req : request) (e : error) :
  outcome_of (run exec (_handleUDE_CRUD req) w) = Thrown e ->
  thrown_by (log_of (run exec (_handleUDE_CRUD req) w)) = Some e
  \/ (implemented_verb (method req) = false
      /\ e = MethodNotImplemented
      /\ calls_of (log_of (run exec (_handleUDE_CRUD req) w)) = []).
Proof.
  intros H. destruct (ude_failure_shape w req e H) as [Ht | (Hv & He & Hlog)];
    [left; exact Ht |].
  right. rewrite Hlog. repeat split; assumption.
Qed.

(** X4: a create never reads the URL or the headers of its request: two
    [POST]s with the same body run alike, whatever their paths.  The
    address in [POST /UDE/<address>] has no part in what is created. *)
Theorem create_ignores_the_url (w : W) (req1 req2 : request) :
  method req1 = "POST" ->
  method req2 = "POST" ->
  body req1 = body req2 ->
  run exec (_handleUDE_CRUD req1) w = run exec (_handleUDE_CRUD req2) w.
Proof.
  intros H1 H2 Hb. unfold _handleUDE_CRUD.
  destruct (method_post req1 H1) as [-> ->].
  destruct (method_post req2 H2) as [-> ->].
  rewrite Hb. reflexivity.
Qed.

Lemma method_delete (req : request) :
  method req = "DELETE" ->
  String.eqb (method req) "GET" = false
  /\ String.eqb (method req) "POST" = false
  /\ String.eqb (method req) "DELETE" = true.
Proof. intros ->. repeat split. Qed.

(** X5: a delete calls the parser, the resolver and [delete()] of the
    resolved component, and nothing else; the acknowledgement is returned
    only by a run in which all three succeeded, [delete()] last, on the
    component the resolver gave. *)
Theorem delete_acknowledges_after_delete (w : W) (req : request) :
  method req = "DELETE" ->
  let r := run exec (_handleUDE_CRUD req) w in
  (forall c, c ∈ calls_of (log_of r) ->
     match c with
     | IOR_init _ | IOR_load _ | PM_delete _ => True
     | _ => False
     end)
  /\ (forall p, outcome_of r = Returned p ->
        p = DeleteOk
        /\ exists i c,
            log_of r =
              [Replied (reply_header "Content-Type" "application/json; charset=utf-8");
               Called (IOR_init (url req)) (Ok i);
               Called (IOR_load (protocol_push i ude)) (Ok c);
               Called (PM_delete c) (Ok tt)]).
Proof.
  intros Hm r. subst r. unfold _handleUDE_CRUD.
  destruct (method_delete req Hm) as (-> & -> & ->).
  rewrite run_reply. cbn [log_of outcome_of world_of fst snd].
  next_call i e w1.
  2: { split; [| discriminate]. intros c H. cbn [calls_of] in H.
       repeat (apply elem_of_cons in H as [-> | H]; [exact I |]).
       by apply elem_of_nil in H. }
  next_call c0 e w2.
  2: { split; [| discriminate]. intros c H. cbn [calls_of] in H.
       repeat (apply elem_of_cons in H as [-> | H]; [exact I |]).
       by apply elem_of_nil in H. }
  next_call u e w3.
  2: { split; [| discriminate]. intros c H. cbn [calls_of] in H.
       repeat (apply elem_of_cons in H as [-> | H]; [exact I |]).
       by apply elem_of_nil in H. }
  destruct u. split.
  - intros c H. cbn [calls_of] in H.
    repeat (apply elem_of_cons in H as [-> | H]; [exact I |]).
    by apply elem_of_nil in H.
  - intros p [= <-]. split; [reflexivity |]. exists i, c0. reflexivity.
Qed.

(** X6: a read calls the parser, the resolver and the snapshot getter, and
    nothing else: no setter and nothing of the persistence manager that
    writes; what it returns is what the getter gave for the component the
    resolver gave. *)
Theorem read_only_reads (w : W) (req : request) :
  method req = "GET" ->
  let r := run exec (_handleUDE_CRUD req) w in
  (forall c, c ∈ calls_of (log_of r) ->
     match c with
     | IOR_init _ | IOR_load _ | PM_ucpComponentData _ => True
     | _ => False
     end)
  /\ (forall p, outcome_of r = Returned p ->
        exists i c data,
          log_of r =
            [Replied (reply_header "Content-Type" "application/json; charset=utf-8");
             Called (IOR_init (url req)) (Ok i);
             Called (IOR_load (protocol_push i ude)) (Ok c);
             Called (PM_ucpComponentData c) (Ok data)]
          /\ p = Snapshot data).
Proof.
  intros Hm r. subst r. unfold _handleUDE_CRUD. rewrite Hm.
  cbn [String.eqb Ascii.eqb Bool.eqb].
  rewrite run_reply. cbn [log_of outcome_of world_of fst snd].
  next_call i e w1.
  2: { split; [| discriminate]. intros c H. cbn [calls_of] in H.
       repeat (apply elem_of_cons in H as [-> | H]; [exact I |]).
       by apply elem_of_nil in H. }
  next_call c0 e w2.
  2: { split; [| discriminate]. intros c H. cbn [calls_of] in H.
       repeat (apply elem_of_cons in H as [-> | H]; [exact I |]).
       by apply elem_of_nil in H. }
  next_call data e w3.
  2: { split; [| discriminate]. intros c H. cbn [calls_of] in H.
       repeat (apply elem_of_cons in H as [-> | H]; [exact I |]).
       by apply elem_of_nil in H. }
  split.
  - intros c H. cbn [calls_of] in H.
    repeat (apply elem_of_cons in H as [-> | H]; [exact I |]).
    by apply elem_of_nil in H.
  - intros p [= <-]. exists i, c0, data. split; reflexivity.
Qed.

(** X7: a create that returns has made these calls, in this order, and no
    other: validate the body; load the class the payload's [typeIOR]
    names; instantiate that class; give the instance the payload's model,
    then the payload's id (as it is, also when the payload has none);
    register the payload's aliases; [create()]; read the snapshot of the
    same instance, which is what it returns. *)
Theorem create_that_returns_has_run_in_order (w : W) (req : request) (p : payload) :
  method req = "POST" ->
  outcome_of (run exec (_handleUDE_CRUD req) w) = Returned p ->
  exists udeData cls c data,
    log_of (run exec (_handleUDE_CRUD req) w) =
      ([Replied (reply_header "Content-Type" "application/json; charset=utf-8");
        Called (validateUDEStructure (body req)) (Ok udeData);
        Called (DefaultIOR_load (typeIOR udeData)) (Ok cls);
        Called (new_component cls) (Ok c);
        Called (set_model c (particle_data udeData)) (Ok tt);
        Called (set_IOR_id c (id udeData)) (Ok tt)]
       ++ map (fun a => Called (PM_addAlias c a) (Ok tt)) (default [] (alias udeData))
       ++ [Called (PM_create c) (Ok tt);
           Called (PM_ucpComponentData c) (Ok data)])%list
    /\ p = Snapshot data.
Proof.
  intros Hm. unfold _handleUDE_CRUD.
  destruct (method_post req Hm) as [-> ->].
  rewrite run_reply. cbn [log_of outcome_of world_of fst snd].
  next_call udeData e w1; [| discriminate].
  next_call cls e w2; [| discriminate].
  next_call c e w3; [| discriminate].
  next_call u1 e w4; [| discriminate].
  next_call u2 e w5; [| discriminate].
  destruct u1, u2.
  change (run exec _ w5) with (run exec (create_tail c (alias udeData)) w5).
  destruct (run_create_tail exec c (alias udeData) w5)
    as [(l1 & a & l2 & e & _ & Hlog & Ho) | [(e & Hlog & Ho)
        | [(e & Hlog & Ho) | (data & Hlog & Ho)]]];
    rewrite Hlog, Ho; try discriminate.
  intros [= <-]. exists udeData, cls, c, data. split; reflexivity.
Qed.

(** X8: an update validates its body before it looks at the address: when
    the validator rejects the body, the request fails with the validator's
    failure, the URL is not parsed, nothing is resolved and no model is
    set. *)
Theorem update_validates_before_resolving
    (w w1 : W) (req : request) (e : error) :
  method req = "PUT" ->
  exec (validateUDEStructure (body req)) w = (Err e, w1) ->
  run exec (_handleUDE_CRUD req) w =
    ([Replied (reply_header "Content-Type" "application/json; charset=utf-8");
      Called (validateUDEStructure (body req)) (Err e)],
     Thrown e, w1).
Proof.
  intros Hm Hv. unfold _handleUDE_CRUD.
  destruct (method_put req Hm) as (-> & -> & -> & ->).
  rewrite run_reply. step_call. rewrite Hv. reflexivity.
Qed.

End UdeHandlerShapes.

(** * Further properties of the [GET /ior*] handler *)

Lemma prefix_empty (s : string) : String.prefix "" s = true.
Proof. destruct s; reflexivity. Qed.

Lemma startsWith_slash (s : string) : startsWith ("/" ++ s) "/" = true.
Proof. unfold startsWith. cbn. apply prefix_empty. Qed.

(** A URL with the marker [/ior:esm:] is a slash followed by a reference
    that begins with [ior:esm:]: this is what [replace(/^\//, '')] leaves. *)
Lemma marker_without_slash (u : string) :
  startsWith u "/ior:esm:" = true ->
  u = "/" ++ strip_leading_slash u
  /\ startsWith (strip_leading_slash u) "ior:esm:" = true.
Proof.
  unfold startsWith. destruct u as [| c u]; [discriminate |].
  cbn [String.prefix].
  destruct (ascii_dec "/" c) as [<- |]; [| discriminate].
  intros H. split; [reflexivity | exact H].
Qed.

Section IorHandlerMore.

Context {W : Type}.
Variable exec : forall c : call, W -> result (result_of c) * W.
Variable ONCE : once.

(** X9: the [GET /ior*] handler never completes normally: whatever the
    request and the collaborators, it ends with a failure.  It redirects
    at most once, and a redirect goes to a target that begins with a
    slash. *)
Theorem ior_handler_always_fails (w : W) (req : request) :
  (exists e, outcome_of (run exec (handle_ior ONCE req) w) = Thrown e)
  /\ length (redirects (log_of (run exec (handle_ior ONCE req) w))) <= 1
  /\ (forall t, t ∈ redirects (log_of (run exec (handle_ior ONCE req) w)) ->
        startsWith t "/" = true).
Proof.
  destruct (startsWith (url req) "/ior:esm:") eqn:Hpre.
  2: { rewrite handle_ior_unmarked by assumption. cbn.
       split; [by eexists |]. split; [lia |]. intros t H. by apply elem_of_nil in H. }
  destruct (sec_fetch_dest_is_script req) eqn:Hhdr.
  2: { rewrite handle_ior_not_script by assumption. cbn.
       split; [by eexists |]. split; [lia |]. intros t H. by apply elem_of_nil in H. }
  rewrite handle_ior_script by assumption.
  destruct (exec (IOR_init _) w) as [[i | e] w1].
  2: { cbn. split; [by eexists |]. split; [lia |].
       intros t H. by apply elem_of_nil in H. }
  destruct (exec (IOR_load_path i) w1) as [[p | e] w2].
  2: { cbn. split; [by eexists |]. split; [lia |].
       intros t H. by apply elem_of_nil in H. }
  cbn [log_of outcome_of fst snd redirects length].
  split; [by eexists |]. split; [lia |].
  intros t H. apply list_elem_of_singleton in H as ->. apply startsWith_slash.
Qed.

(** X10: the parser is only ever given the URL without its leading slash,
    a reference that begins with [ior:esm:]; it is called at most once,
    and only for a request with the script header. *)
Theorem ior_parser_sees_the_reference_without_slash (w : W) (req : request) :
  (forall u, IOR_init u ∈ calls_of (log_of (run exec (handle_ior ONCE req) w)) ->
     url req = "/" ++ u
     /\ startsWith u "ior:esm:" = true
     /\ sec_fetch_dest_is_script req = true)
  /\ length (List.filter is_parse
               (calls_of (log_of (run exec (handle_ior ONCE req) w)))) <= 1.
Proof.
  destruct (startsWith (url req) "/ior:esm:") eqn:Hpre.
  2: { rewrite handle_ior_unmarked by assumption. cbn.
       split; [| lia]. intros u H. by apply elem_of_nil in H. }
  destruct (sec_fetch_dest_is_script req) eqn:Hhdr.
  2: { rewrite handle_ior_not_script by assumption. cbn.
       split; [| lia]. intros u H. by apply elem_of_nil in H. }
  rewrite handle_ior_script by assumption.
  destruct (marker_without_slash (url req) Hpre) as [Hurl Hmark].
  destruct (exec (IOR_init _) w) as [[i | e] w1].
  2: { cbn [log_of fst snd calls_of]. split; [| cbn; lia].
       intros u H. apply list_elem_of_singleton in H. injection H as ->.
       repeat split; assumption. }
  destruct (exec (IOR_load_path i) w1) as [[p | e] w2];
    cbn [log_of fst snd calls_of]; (split; [| cbn; lia]);
    intros u H;
    (apply elem_of_cons in H as [H | H];
     [injection H as ->; repeat split; assumption |]);
    apply list_elem_of_singleton in H; discriminate H.
Qed.

End IorHandlerMore.

(** ** Where the redirect goes *)

Lemma drop_common_app (common l1 l2 : list string) :
  drop_common (common ++ l1) (common ++ l2) = drop_common l1 l2.
Proof.
  induction common as [| seg common IH]; cbn; [reflexivity |].
  rewrite String.eqb_refl. exact IH.
Qed.

Lemma drop_common_diverge (f : string) (up down : list string) :
  match down with [] => True | d :: _ => d <> f end ->
  drop_common (f :: up) down = (f :: up, down).
Proof.
  destruct down as [| d down]; cbn; [reflexivity |].
  intros Hne. destruct (String.eqb_spec f d) as [-> | _]; [contradiction | reflexivity].
Qed.

Lemma path_relative_inside (cwd from to : string) (rest : list string) :
  path_resolve cwd to = (path_resolve cwd from ++ rest)%list ->
  path_relative cwd from to = String.concat "/" rest.
Proof.
  intros Hto. destruct (String.eqb from to) eqn:Heq.
  - apply String.eqb_eq in Heq as <-.
    rewrite <- (app_nil_r (path_resolve cwd from)) in Hto at 1.
    apply app_inv_head in Hto as <-.
    unfold path_relative. rewrite String.eqb_refl. reflexivity.
  - apply path_relative_below; assumption.
Qed.

Lemma path_relative_outside (cwd from to : string)
    (common up down : list string) (f : string) :
  path_resolve cwd from = (common ++ f :: up)%list ->
  path_resolve cwd to = (common ++ down)%list ->
  match down with [] => True | d :: _ => d <> f end ->
  path_relative cwd from to
  = String.concat "/" (".." :: repeat ".." (length up) ++ down).
Proof.
  intros Hfrom Hto Hne. unfold path_relative.
  destruct (String.eqb_spec from to) as [-> | _].
  { rewrite Hfrom in Hto. apply app_inv_head in Hto as <-.
    cbn in Hne. contradiction. }
  rewrite Hfrom, Hto, drop_common_app, (drop_common_diverge f up down Hne).
  reflexivity.
Qed.

Lemma concat_dotdot (l : list string) :
  exists s, String.concat "/" (".." :: l) = ".." ++ s.
Proof.
  destruct l as [| x l]; cbn.
  - exists "". reflexivity.
  - eexists. reflexivity.
Qed.

Section IorRedirectTarget.

Context {W : Type}.
Variable exec : forall c : call, W -> result (result_of c) * W.
Variable ONCE : once.

(** X11: when the reference of a script fetch resolves to a path at or
    below the web root, the redirect goes to the path with the web root
    taken off its front: a slash followed by the segments of the path
    that come after those of the web root (to ["/"] for the web root
    itself). *)
Theorem ior_redirect_inside_the_web_root
    (w w1 w2 : W) (req : request) (i : IOR) (p : string) (rest : list string) :
  startsWith (url req) "/ior:esm:" = true ->
  sec_fetch_dest_is_script req = true ->
  exec (IOR_init (strip_leading_slash (url req))) w = (Ok i, w1) ->
  exec (IOR_load_path i) w1 = (Ok p, w2) ->
  path_resolve (cwd ONCE) p
    = (path_resolve (cwd ONCE) (webRoot ONCE) ++ rest)%list ->
  redirects (log_of (run exec (handle_ior ONCE req) w))
  = ["/" ++ String.concat "/" rest].
Proof.
  intros Hpre Hhdr Hinit Hload Hp.
  rewrite handle_ior_script by assumption. rewrite Hinit, Hload.
  cbn [log_of fst snd redirects].
  rewrite (path_relative_inside _ _ _ rest Hp). reflexivity.
Qed.

(** X12: the handler does not keep the redirect inside the web root.  When
    the reference resolves to a path that is not below the web root, the
    target climbs out with one [..] for each segment of the web root that
    the path does not share, and so begins with [/..]. *)
Theorem ior_redirect_outside_the_web_root
    (w w1 w2 : W) (req : request) (i : IOR) (p : string)
    (common up down : list string) (f : string) :
  startsWith (url req) "/ior:esm:" = true ->
  sec_fetch_dest_is_script req = true ->
  exec (IOR_init (strip_leading_slash (url req))) w = (Ok i, w1) ->
  exec (IOR_load_path i) w1 = (Ok p, w2) ->
  path_resolve (cwd ONCE) (webRoot ONCE) = (common ++ f :: up)%list ->
  path_resolve (cwd ONCE) p = (common ++ down)%list ->
  match down with [] => True | d :: _ => d <> f end ->
  exists target,
    redirects (log_of (run exec (handle_ior ONCE req) w)) = [target]
    /\ target = "/" ++ String.concat "/" (".." :: repeat ".." (length up) ++ down)
    /\ startsWith target "/.." = true.
Proof.
  intros Hpre Hhdr Hinit Hload Hroot Hp Hne.
  rewrite handle_ior_script by assumption. rewrite Hinit, Hload.
  cbn [log_of fst snd redirects].
  rewrite (path_relative_outside _ _ _ common up down f Hroot Hp Hne).
  eexists. split; [reflexivity |]. split; [reflexivity |].
  destruct (concat_dotdot (repeat ".." (length up) ++ down)) as [s ->].
  unfold startsWith. cbn. apply prefix_empty.
Qed.

End IorRedirectTarget.

Lemma ior_redirect_inside_the_web_root_witness :
  let req := Reference.script_get "/ior:esm:/tla.EAM.Once[dev]" in
  path_resolve (cwd Reference.ONCE)
    "/var/EAMD.ucp/Scenarios/localhost/EAMD.ucp/tla/EAM/Once/dev/index.mjs"
  = (path_resolve (cwd Reference.ONCE) (webRoot Reference.ONCE)
       ++ ["EAMD.ucp"; "tla"; "EAM"; "Once"; "dev"; "index.mjs"])%list
  /\ redirects (log_of (run Reference.exec (handle_ior Reference.ONCE req) Reference.w0))
     = ["/EAMD.ucp/tla/EAM/Once/dev/index.mjs"].
Proof.
  intros req. split; [reflexivity |].
  apply (ior_redirect_inside_the_web_root Reference.exec Reference.ONCE
           Reference.w0 Reference.w0 Reference.w0 req
           (mkIOR [ior; esm] "/tla.EAM.Once[dev]")
           "/var/EAMD.ucp/Scenarios/localhost/EAMD.ucp/tla/EAM/Once/dev/index.mjs"
           ["EAMD.ucp"; "tla"; "EAM"; "Once"; "dev"; "index.mjs"]);
    reflexivity.
Defined.

(** ** The monad of the start-up code *)

Section StartupMonad.

Import Startup.

Context {St : Type}.

Lemma mbind_ret {A B : Type} (a : A) (f : A -> M St B) (s : St) :
  mbind (ret a) f s = f a s.
Proof. unfold mbind, ret. destruct (f a s) as [[log o] s1]. reflexivity. Qed.

Lemma mbind_assoc {A B C : Type} (m : M St A) (f : A -> M St B)
    (g : B -> M St C) (s : St) :
  mbind (mbind m f) g s = mbind m (fun a => mbind (f a) g) s.
Proof.
  unfold mbind. destruct (m s) as [[log [a | e]] s1]; [| reflexivity].
  destruct (f a s1) as [[log1 [b | e]] s2]; [| reflexivity].
  destruct (g b s2) as [[log2 o] s3]. by rewrite app_assoc.
Qed.

Lemma mbind_perform {B : Type}
    (ex : forall c : sys, St -> completion (sys_result c) * St)
    (c : sys) (f : sys_result c -> M St B) (s : St) :
  mbind (perform ex c) f s =
    match ex c s with
    | (Normal a, s1) => after [Did c (Normal a)] (f a s1)
    | (Abrupt e, s1) => ([Did c (Abrupt e)], Abrupt e, s1)
    end.
Proof.
  unfold mbind, perform, after. destruct (ex c s) as [[a | e] s1]; [| reflexivity].
  destruct (f a s1) as [[log o] s2]. reflexivity.
Qed.

Lemma mbind_try_perform {B : Type}
    (ex : forall c : sys, St -> completion (sys_result c) * St)
    (c : sys) (h : thrown -> M St (sys_result c))
    (f : sys_result c -> M St B) (s : St) :
  mbind (try_catch (perform ex c) h) f s =
    match ex c s with
    | (Normal a, s1) => after [Did c (Normal a)] (f a s1)
    | (Abrupt e, s1) => after [Did c (Abrupt e)] (mbind (h e) f s1)
    end.
Proof.
  unfold mbind, try_catch, perform, after.
  destruct (ex c s) as [[a | e] s1].
  - destruct (f a s1) as [[log o] s2]. reflexivity.
  - destruct (h e s1) as [[log [a | e']] s2]; [| reflexivity].
    destruct (f a s2) as [[log2 o] s3]. cbn. reflexivity.
Qed.

Lemma after_after {R : Type} (l1 l2 : list event)
    (r : list event * completion R * St) :
  after l1 (after l2 r) = after (l1 ++ l2) r.
Proof. unfold after. cbn. by rewrite app_assoc. Qed.

End StartupMonad.

Section InstanceStart.

Import Startup.

Context {W : Type}.
Variable exec : forall c : sys, W -> completion (sys_result c) * W.
Variable path : path_module.
Variable ONCE_scenario : scenario.

Lemma mbind_get_this {B : Type} (f : webserver -> M (method_state W) B)
    (s : method_state W) :
  mbind get_this f s = f (this s) s.
Proof. unfold mbind, get_this. destruct (f (this s) s) as [[log o] s1]. reflexivity. Qed.

Lemma mbind_set_server {B : Type} (srv : server)
    (f : unit -> M (method_state W) B) (s : method_state W) :
  mbind (set_server srv) f s =
    f tt (mkState (mkWebserver (port (this s)) (model_protocol (this s))
                               (scenarioDirectory (this s)) (Some srv))
                  (world s)).
Proof. unfold mbind, set_server. destruct (f tt _) as [[log o] s1]. reflexivity. Qed.

Lemma exec_in_method_eq (c : sys) (s : method_state W) :
  exec_in_method exec c s =
    (fst (exec c (world s)), mkState (this s) (snd (exec c (world s)))).
Proof. unfold exec_in_method. destruct (exec c (world s)). reflexivity. Qed.

End InstanceStart.

(** Symbolic execution of a method: one call at a time. *)
Ltac method_step ex :=
  first
    [ rewrite mbind_assoc
    | rewrite mbind_ret
    | rewrite mbind_get_this
    | rewrite mbind_set_server
    | match goal with
      | |- context [Startup.mbind (if negb ?b then _ else _) _ _] =>
          destruct b; cbn [negb]
      | |- context [Startup.mbind (if ?b then _ else _) _ _] =>
          destruct b eqn:?
      | |- context [@Startup.mbind ?St ?A ?B
                      (Startup.perform (Startup.exec_in_method ex) ?c) ?f ?s] =>
          change (@Startup.mbind St A B
                    (Startup.perform (Startup.exec_in_method ex) c) f s)
            with (@Startup.mbind St (Startup.sys_result c) B
                    (Startup.perform (Startup.exec_in_method ex) c) f s);
          rewrite (@mbind_perform St B (Startup.exec_in_method ex) c f s);
          rewrite (exec_in_method_eq ex c s);
          let x := fresh "x" in let e := fresh "e" in let w := fresh "w" in
          destruct (ex c (Startup.world s)) as [[x | e] w];
          cbn [fst snd Startup.this Startup.world]; cbv beta
      | |- context [@Startup.mbind ?St ?A ?B
                      (Startup.try_catch
                         (Startup.perform (Startup.exec_in_method ex) ?c) ?h) ?f ?s] =>
          rewrite (@mbind_try_perform St B (Startup.exec_in_method ex) c h f s);
          rewrite (exec_in_method_eq ex c s);
          let x := fresh "x" in let e := fresh "e" in let w := fresh "w" in
          destruct (ex c (Startup.world s)) as [[x | e] w];
          cbn [fst snd Startup.this Startup.world]; cbv beta
      | |- context [Startup.perform (Startup.exec_in_method ex) ?c ?s] =>
          unfold Startup.perform at 1;
          rewrite (exec_in_method_eq ex c s);
          let x := fresh "x" in let e := fresh "e" in let w := fresh "w" in
          destruct (ex c (Startup.world s)) as [[x | e] w];
          cbn [fst snd Startup.this Startup.world]; cbv beta
      end ].

(** * Starting and stopping *)

Section StaticStart.

Import Startup.

Context {W : Type}.
Variable exec : forall c : sys, W -> completion (sys_result c) * W.
Variable className : string.
Variable instanceof_this : ref -> bool.

Lemma static_start_unfold (sn : option string) (w : W) :
  static_start exec className instanceof_this sn w =
    match exec (UDELoader_load (looked_up className sn)) w with
    | (Abrupt e, w1) =>
        if no_file_found e then
          after [Did (UDELoader_load (looked_up className sn)) (Abrupt e)]
                (start_new exec (looked_up className sn) w1)
        else ([Did (UDELoader_load (looked_up className sn)) (Abrupt e)],
              Abrupt e, w1)
    | (Normal s, w1) =>
        if instanceof_this s then
          match exec (instance_start s) w1 with
          | (Normal u, w2) =>
              ([Did (UDELoader_load (looked_up className sn)) (Normal s);
                Did (instance_start s) (Normal u)], Normal s, w2)
          | (Abrupt e, w2) =>
              if no_file_found e then
                after [Did (UDELoader_load (looked_up className sn)) (Normal s);
                       Did (instance_start s) (Abrupt e)]
                      (start_new exec (looked_up className sn) w2)
              else ([Did (UDELoader_load (looked_up className sn)) (Normal s);
                     Did (instance_start s) (Abrupt e)], Abrupt e, w2)
          end
        else
          after [Did (UDELoader_load (looked_up className sn)) (Normal s)]
                (start_new exec (looked_up className sn) w1)
    end.
Proof.
  set (n := looked_up className sn).
  change (static_start exec className instanceof_this sn w)
    with (mbind
            (try_catch
               (mbind (perform exec (UDELoader_load n))
                  (fun loadedServer =>
                     if instanceof_this loadedServer then
                       mbind (perform exec (instance_start loadedServer))
                             (fun _ => ret (Some loadedServer))
                     else ret None))
               (fun e => if no_file_found e then ret None else throw e))
            (fun returned =>
               match returned with
               | Some loadedServer => ret loadedServer
               | None => start_new exec n
               end) w).
  unfold after.
  cbv [mbind try_catch perform ret throw].
  destruct (exec (UDELoader_load n) w) as [[s | e] w1].
  - destruct (instanceof_this s).
    + destruct (exec (instance_start s) w1) as [[u | e] w2]; [reflexivity |].
      destruct (no_file_found e); [| reflexivity].
      destruct (start_new exec n w2) as [[log o] w3]. reflexivity.
    + destruct (start_new exec n w1) as [[log o] w3]. reflexivity.
  - destruct (no_file_found e); [| reflexivity].
    destruct (start_new exec n w1) as [[log o] w3]. reflexivity.
Qed.

End StaticStart.

Ltac world_step ex :=
  match goal with
  | |- context [Startup.mbind (Startup.perform ex ?c) ?f ?s] =>
      rewrite (mbind_perform ex c f s);
      let x := fresh "x" in let e := fresh "e" in let w := fresh "w" in
      destruct (ex c s) as [[x | e] w]
  end.

Ltac unit_results :=
  repeat match goal with
         | x : Startup.sys_result ?c |- _ =>
             let T := eval cbn in (Startup.sys_result c) in
             match T with unit => destruct x end
         end.

(** ** [static start] *)

Section StaticStartFacts.

Import Startup.

Context {W : Type}.
Variable exec : forall c : sys, W -> completion (sys_result c) * W.
Variable className : string.
Variable instanceof_this : ref -> bool.

(** The creation of a new server: four calls, each made only when the one
    before succeeded. *)
Lemma run_start_new (n : string) (w : W) :
  let r := start_new exec n w in
  (exists e, events r = [Did new_this (Abrupt e)] /\ completed r = Abrupt e)
  \/ (exists s e,
         events r = [Did new_this (Normal s); Did (addAlias s n) (Abrupt e)]
         /\ completed r = Abrupt e)
  \/ (exists s e,
         events r = [Did new_this (Normal s); Did (addAlias s n) (Normal tt);
                     Did (create s) (Abrupt e)]
         /\ completed r = Abrupt e)
  \/ (exists s e,
         events r = [Did new_this (Normal s); Did (addAlias s n) (Normal tt);
                     Did (create s) (Normal tt);
                     Did (instance_start s) (Abrupt e)]
         /\ completed r = Abrupt e)
  \/ (exists s,
         events r = [Did new_this (Normal s); Did (addAlias s n) (Normal tt);
                     Did (create s) (Normal tt);
                     Did (instance_start s) (Normal tt)]
         /\ completed r = Normal s).
Proof.
  intros r. subst r. unfold start_new.
  world_step exec; [| left; exists e; split; reflexivity].
  right. world_step exec; unit_results;
    [| left; eexists _, _; split; reflexivity].
  right. world_step exec; unit_results;
    [| left; eexists _, _; split; reflexivity].
  right. world_step exec; unit_results;
    [| left; eexists _, _; split; reflexivity].
  right. eexists. split; reflexivity.
Qed.


(** X13: the server [static start] returns has been started, and its
    start is the last thing done.  It is either the loaded server, an
    instance of the class, with nothing created; or a new server, made
    after the load failed with [Error('No file Found')], or gave an object
    of another class, or the start of the loaded server failed with
    [Error('No file Found')]: the new server is given the looked-up name
    as alias, then created, then started. *)
Theorem static_start_returns_a_started_server
    (scenarioName : option string) (w : W) (s : ref) :
  let n := looked_up className scenarioName in
  let r := static_start exec className instanceof_this scenarioName w in
  completed r = Normal s ->
  (instanceof_this s = true
   /\ events r = [Did (UDELoader_load n) (Normal s);
                  Did (instance_start s) (Normal tt)])
  \/ (exists pre,
         fell_through instanceof_this n pre
         /\ events r = (pre ++ [Did new_this (Normal s);
                                Did (addAlias s n) (Normal tt);
                                Did (create s) (Normal tt);
                                Did (instance_start s) (Normal tt)])%list).
Proof.
  intros n r. subst r. rewrite static_start_unfold. fold n.
  destruct (exec (UDELoader_load n) w) as [[s0 | e] w1].
  - destruct (instanceof_this s0) eqn:Hinst.
    + destruct (exec (instance_start s0) w1) as [[[] | e] w2].
      * intros [= <-]. left. split; [exact Hinst | reflexivity].
      * destruct (no_file_found e) eqn:Hnff; [| discriminate].
        cbn [after completed events fst snd].
        destruct (run_start_new n w2)
          as [(e1 & Hev & Hc) | [(s1 & e1 & Hev & Hc) | [(s1 & e1 & Hev & Hc)
              | [(s1 & e1 & Hev & Hc) | (s1 & Hev & Hc)]]]];
          rewrite Hev, Hc; try discriminate.
        intros [= <-]. right. eexists. split; [| reflexivity].
        right. right. exists s0, e. repeat split; assumption.
    + cbn [after completed events fst snd].
      destruct (run_start_new n w1)
        as [(e1 & Hev & Hc) | [(s1 & e1 & Hev & Hc) | [(s1 & e1 & Hev & Hc)
            | [(s1 & e1 & Hev & Hc) | (s1 & Hev & Hc)]]]];
        rewrite Hev, Hc; try discriminate.
      intros [= <-]. right. eexists. split; [| reflexivity].
      right. left. exists s0. split; [assumption | reflexivity].
  - destruct (no_file_found e) eqn:Hnff; [| discriminate].
    cbn [after completed events fst snd].
    destruct (run_start_new n w1)
      as [(e1 & Hev & Hc) | [(s1 & e1 & Hev & Hc) | [(s1 & e1 & Hev & Hc)
          | [(s1 & e1 & Hev & Hc) | (s1 & Hev & Hc)]]]];
      rewrite Hev, Hc; try discriminate.
    intros [= <-]. right. eexists. split; [| reflexivity].
    left. exists e. split; [assumption | reflexivity].
Qed.

(** X14: the one failure [static start] goes on after is an
    [Error('No file Found')], from the load or from the start of the
    loaded server; what follows it is the making of a new server.  Any
    other failure, and any failure of the creation itself, is the last
    entry of the log: it ends the run. *)
Theorem static_start_goes_on_only_after_no_file_found
    (scenarioName : option string) (w : W) (i : nat) (c : sys) (e : thrown) :
  let n := looked_up className scenarioName in
  let r := static_start exec className instanceof_this scenarioName w in
  trace (events r) !! i = Some (c, Some e) ->
  S i < length (trace (events r)) ->
  no_file_found e = true
  /\ ((i = 0 /\ c = UDELoader_load n)
      \/ (i = 1 /\ exists s0, c = instance_start s0 /\ instanceof_this s0 = true))
  /\ fst <$> trace (events r) !! S i = Some new_this.
Proof.
  intros n r. subst r. rewrite static_start_unfold. fold n.
  assert (Hnew : forall w', exists l,
             trace (events (start_new exec n w')) = l
             /\ length l <= 4
             /\ (forall j c' e', l !! j = Some (c', Some e') -> length l = S j)
             /\ (forall x, l !! 0 = Some x -> fst x = new_this)
             /\ l <> []).
  { intros w'. eexists. split; [reflexivity |].
    destruct (run_start_new n w')
      as [(e1 & Hev & Hc) | [(s1 & e1 & Hev & Hc) | [(s1 & e1 & Hev & Hc)
          | [(s1 & e1 & Hev & Hc) | (s1 & Hev & Hc)]]]];
      rewrite Hev; cbn; (split; [lia |]);
      (split; [intros [| [| [| [| j]]]] c' e' H; cbn in H; simplify_eq; reflexivity |]);
      (split; [intros x [= <-]; reflexivity | discriminate]). }
  destruct (exec (UDELoader_load n) w) as [[s0 | e0] w1].
  - destruct (instanceof_this s0) eqn:Hinst.
    + destruct (exec (instance_start s0) w1) as [[[] | e0] w2].
      * cbn. destruct i as [| [| i]]; cbn; intros; simplify_eq.
      * destruct (no_file_found e0) eqn:Hnff.
        2: { cbn. destruct i as [| [| i]]; cbn; intros; simplify_eq; lia. }
        cbn [after completed events fst snd app trace].
        destruct (Hnew w2) as (l & -> & Hlen & Hlast & Hhead & Hne).
        destruct i as [| [| i]]; cbn; intros Hi Hl.
        -- discriminate Hi.
        -- injection Hi as <- <-. split; [assumption |]. split.
           ++ right. split; [reflexivity |]. exists s0. split; [reflexivity | assumption].
           ++ destruct l as [| x l]; [contradiction |].
              cbn. f_equal. apply Hhead. reflexivity.
        -- apply Hlast in Hi. lia.
    + cbn [after completed events fst snd app trace].
      destruct (Hnew w1) as (l & -> & Hlen & Hlast & Hhead & Hne).
      destruct i as [| i]; cbn; intros Hi Hl.
      * discriminate Hi.
      * apply Hlast in Hi. lia.
  - destruct (no_file_found e0) eqn:Hnff.
    2: { cbn. destruct i as [| [| i]]; cbn; intros; simplify_eq; lia. }
    cbn [after completed events fst snd app trace].
    destruct (Hnew w1) as (l & -> & Hlen & Hlast & Hhead & Hne).
    destruct i as [| i]; cbn; intros Hi Hl.
    + injection Hi as <- <-. split; [assumption |]. split.
      * left. split; reflexivity.
      * destruct l as [| x l]; [contradiction |].
        cbn. f_equal. apply Hhead. reflexivity.
    + apply Hlast in Hi. lia.
Qed.

(** X15: when the looked-up name loads an instance of the class and its
    start succeeds, [static start] returns that instance and has done
    nothing else: no server is made, no alias added, nothing created. *)
Theorem static_start_reuses_the_saved_server
    (scenarioName : option string) (w w1 w2 : W) (s : ref) :
  exec (UDELoader_load (looked_up className scenarioName)) w = (Normal s, w1) ->
  instanceof_this s = true ->
  exec (instance_start s) w1 = (Normal tt, w2) ->
  static_start exec className instanceof_this scenarioName w =
    ([Did (UDELoader_load (looked_up className scenarioName)) (Normal s);
      Did (instance_start s) (Normal tt)],
     Normal s, w2).
Proof.
  intros Hload Hinst Hstart. rewrite static_start_unfold.
  rewrite Hload, Hinst, Hstart. reflexivity.
Qed.

(** X16: when the looked-up name loads an object that is not an instance
    of the class, the object is neither started nor returned and nothing
    fails: a new server is made and given that same name as alias. *)
Theorem static_start_replaces_a_foreign_object
    (scenarioName : option string) (w w1 : W) (s0 : ref) :
  exec (UDELoader_load (looked_up className scenarioName)) w = (Normal s0, w1) ->
  instanceof_this s0 = false ->
  let n := looked_up className scenarioName in
  let r := static_start exec className instanceof_this scenarioName w in
  r = after [Did (UDELoader_load n) (Normal s0)] (start_new exec n w1)
  /\ (exists made rest,
        trace (events r) = (UDELoader_load n, None) :: (new_this, made) :: rest)
  /\ (forall s a, addAlias s a ∈ sys_calls (events r) -> a = n)
  /\ (forall s, completed r = Normal s ->
        Did new_this (Normal s) ∈ events r).
Proof.
  intros Hload Hinst n r. subst r. rewrite static_start_unfold.
  rewrite Hload, Hinst. fold n. split; [reflexivity |].
  cbn [after completed events fst snd].
  destruct (run_start_new n w1)
    as [(e1 & Hev & Hc) | [(s1 & e1 & Hev & Hc) | [(s1 & e1 & Hev & Hc)
        | [(s1 & e1 & Hev & Hc) | (s1 & Hev & Hc)]]]];
    rewrite Hev, Hc;
    (split; [eexists _, _; reflexivity |]);
    (split; [intros s a H; cbn in H;
             repeat (apply elem_of_cons in H as [H | H];
                     [first [discriminate H | by injection H] |]);
             by apply elem_of_nil in H |]);
    intros s; try discriminate.
  intros [= <-]. cbn. apply list_elem_of_further, list_elem_of_here.
Qed.

End StaticStartFacts.

(** ** [start] and [stop] *)

Ltac in_calls H tac :=
  cbn [Startup.sys_calls Startup.trace map fst] in H;
  repeat (apply elem_of_cons in H as [H | H]; [tac H |]);
  apply elem_of_nil in H; destruct H.

Lemma trace_app (l1 l2 : list Startup.event) :
  Startup.trace (l1 ++ l2) = (Startup.trace l1 ++ Startup.trace l2)%list.
Proof.
  induction l1 as [| [c [r | e]] l1 IH]; cbn; [reflexivity | |]; by rewrite IH.
Qed.

Lemma sys_calls_app (l1 l2 : list Startup.event) :
  Startup.sys_calls (l1 ++ l2)
  = (Startup.sys_calls l1 ++ Startup.sys_calls l2)%list.
Proof. unfold Startup.sys_calls. by rewrite trace_app, map_app. Qed.

Lemma servers_made_app (l1 l2 : list Startup.event) :
  Startup.servers_made (l1 ++ l2)
  = (Startup.servers_made l1 ++ Startup.servers_made l2)%list.
Proof.
  induction l1 as [| [c r] l1 IH]; [reflexivity |].
  destruct c; cbn; try exact IH. destruct r; cbn; [by rewrite IH | exact IH].
Qed.


Section StartFacts.

Import Startup.

Context {W : Type}.
Variable exec : forall c : sys, W -> completion (sys_result c) * W.
Variable path : path_module.
Variable ONCE_scenario : scenario.

Local Abbreviation start_of st := (start exec path ONCE_scenario st).
Local Abbreviation bootstrap_of st :=
  (tls_bootstrap exec path ONCE_scenario (this st) st).
Local Abbreviation key_of st := (tlsKeyPath path ONCE_scenario (this st)).
Local Abbreviation cert_of st := (tlsCertPath path ONCE_scenario (this st)).

(** [start] is its three parts, one after the other. *)
Lemma start_cases (st : method_state W) :
  let rb := tls_bootstrap exec path ONCE_scenario (this st) st in
  let ro := server_options exec path ONCE_scenario (this st) (state_after rb) in
  (exists e, completed rb = Abrupt e
             /\ start_of st = (events rb, Abrupt e, state_after rb))
  \/ (exists e, completed rb = Normal tt /\ completed ro = Abrupt e
                /\ start_of st = ((events rb ++ events ro)%list, Abrupt e,
                                  state_after ro))
  \/ (exists o, completed rb = Normal tt /\ completed ro = Normal o
                /\ start_of st
                   = after (events rb ++ events ro)
                       (serve exec path ONCE_scenario (this st) o (state_after ro))).
Proof.
  intros rb ro.
  assert (Heq : start_of st =
    mbind (tls_bootstrap exec path ONCE_scenario (this st))
      (fun _ => mbind (server_options exec path ONCE_scenario (this st))
                  (fun o => serve exec path ONCE_scenario (this st) o)) st).
  { unfold start. rewrite mbind_get_this. reflexivity. }
  rewrite Heq. subst ro rb. unfold mbind, after, events, completed, state_after.
  destruct (tls_bootstrap _ _ _ _ st) as [[lb [[] | e]] sb]; cbn [fst snd].
  2: { left. exists e. split; reflexivity. }
  right.
  destruct (server_options _ _ _ _ sb) as [[lo [o | e]] so]; cbn [fst snd].
  2: { left. exists e. repeat split. }
  right. exists o.
  destruct (serve _ _ _ _ o so) as [[ls os] ss]. cbn [fst snd].
  repeat split. by rewrite app_assoc.
Qed.


Lemma bootstrap_shapes (st : method_state W) :
  let r := bootstrap_of st in
  this (state_after r) = this st
  /\ ((String.eqb (scenario_name ONCE_scenario) "localhost" = false
       /\ events r = [] /\ completed r = Normal tt)
      \/ (String.eqb (scenario_name ONCE_scenario) "localhost" = true
          /\ ((exists e, events r = [Did (existsSync (key_of st)) (Abrupt e)]
                         /\ completed r = Abrupt e)
              \/ (events r = [Did (existsSync (key_of st)) (Normal true)]
                  /\ completed r = Normal tt)
              \/ (exists e,
                     events r = [Did (existsSync (key_of st)) (Normal false);
                                 Did (mkdirp (dirname path (key_of st))) (Abrupt e)]
                     /\ completed r = Abrupt e)
              \/ (exists rk,
                     events r = [Did (existsSync (key_of st)) (Normal false);
                                 Did (mkdirp (dirname path (key_of st))) (Normal tt);
                                 Did (keygen (key_of st) (cert_of st) false) rk]
                     /\ completed r = rk)))).
Proof.
  intros r. subst r. unfold tls_bootstrap.
  destruct (String.eqb (scenario_name ONCE_scenario) "localhost").
  2: { split; [reflexivity |]. left. repeat split. }
  rewrite (mbind_perform (exec_in_method exec)), exec_in_method_eq.
  destruct (exec (existsSync _) (world st)) as [[[] | e] w1]; cbn [fst snd negb].
  - split; [reflexivity |]. right. split; [reflexivity |].
    right. left. split; reflexivity.
  - rewrite (mbind_perform (exec_in_method exec)), exec_in_method_eq.
    cbn [this world].
    destruct (exec (mkdirp _) w1) as [[[] | e] w2]; cbn [fst snd].
    + unfold perform. rewrite exec_in_method_eq. cbn [this world].
      destruct (exec (keygen _ _ _) w2) as [rk w3]. cbn [fst snd].
      split; [reflexivity |]. right. split; [reflexivity |].
      right. right. right. exists rk. split; reflexivity.
    + split; [reflexivity |]. right. split; [reflexivity |].
      right. right. left. exists e. split; reflexivity.
  - split; [reflexivity |]. right. split; [reflexivity |].
    left. exists e. split; reflexivity.
Qed.

Lemma options_shapes (me : webserver) (st : method_state W) :
  let r := server_options exec path ONCE_scenario me st in
  let key := tlsKeyPath path ONCE_scenario me in
  let cert := tlsCertPath path ONCE_scenario me in
  this (state_after r) = this st
  /\ ((String.eqb (model_protocol me) "https" = false
       /\ events r = [] /\ completed r = Normal (mkOptions true None None))
      \/ (String.eqb (model_protocol me) "https" = true
          /\ ((exists e, events r = [Did (readFileSync key) (Abrupt e)]
                         /\ completed r = Abrupt e)
              \/ (exists k e,
                     events r = [Did (readFileSync key) (Normal k);
                                 Did (readFileSync cert) (Abrupt e)]
                     /\ completed r = Abrupt e)
              \/ (exists k c,
                     events r = [Did (readFileSync key) (Normal k);
                                 Did (readFileSync cert) (Normal c)]
                     /\ completed r
                        = Normal (mkOptions true (Some (mkHttps true k c))
                                            (Some true)))))).
Proof.
  intros r key cert. subst r key cert. unfold server_options.
  destruct (String.eqb (model_protocol me) "https").
  2: { split; [reflexivity |]. left. repeat split. }
  rewrite (mbind_perform (exec_in_method exec)), exec_in_method_eq.
  destruct (exec (readFileSync _) (world st)) as [[k | e] w1]; cbn [fst snd].
  - rewrite (mbind_perform (exec_in_method exec)), exec_in_method_eq.
    cbn [this world].
    destruct (exec (readFileSync _) w1) as [[c | e] w2]; cbn [fst snd].
    + split; [reflexivity |]. right. split; [reflexivity |].
      right. right. exists k, c. split; reflexivity.
    + split; [reflexivity |]. right. split; [reflexivity |].
      right. left. exists k, e. split; reflexivity.
  - split; [reflexivity |]. right. split; [reflexivity |].
    left. exists e. split; reflexivity.
Qed.

Ltac run_serve :=
  unfold serve, listen_and_announce; repeat method_step exec; unit_results;
  cbn [after events completed state_after fst snd app].

(** What [serve] does, for the options it is given. *)
Lemma serve_calls (me : webserver) (o : fastify_options) (st : method_state W) :
  let r := serve exec path ONCE_scenario me o st in
  (forall c, c ∈ sys_calls (events r) ->
     match c with
     | fastify o' => o' = o
     | route _ _ _ _ | register_static _ _ | listen _ _ | console_error _
     | console_log _ => True
     | _ => False
     end)
  /\ length (servers_made (events r)) <= 1.
Proof.
  intros r. subst r. run_serve;
    (split; [| cbn [servers_made length]; first [apply le_n | apply le_S, le_n]]);
    intros c H; in_calls H ltac:(fun H => subst c; first [exact I | reflexivity]).
Qed.

Lemma bootstrap_calls (st : method_state W) :
  let r := bootstrap_of st in
  (forall c, c ∈ sys_calls (events r) ->
     match c with
     | existsSync _ | mkdirp _ | keygen _ _ _ => True
     | _ => False
     end)
  /\ servers_made (events r) = [].
Proof.
  intros r. subst r.
  destruct (bootstrap_shapes st)
    as [_ [(_ & Hev & _) | (_ & [(e & Hev & _) | [(Hev & _)
        | [(e & Hev & _) | (rk & Hev & _)]]])]];
    rewrite Hev; (split; [| try destruct rk; reflexivity]);
    intros c H; try destruct rk;
    in_calls H ltac:(fun H => subst c; exact I).
Qed.

Lemma options_calls (me : webserver) (st : method_state W) :
  let r := server_options exec path ONCE_scenario me st in
  (forall c, c ∈ sys_calls (events r) ->
     match c with
     | readFileSync _ => True
     | _ => False
     end)
  /\ servers_made (events r) = [].
Proof.
  intros r. subst r.
  destruct (options_shapes me st)
    as [_ [(_ & Hev & _) | (_ & [(e & Hev & _) | [(k & e & Hev & _)
        | (k & c0 & Hev & _)]])]];
    rewrite Hev; (split; [| reflexivity]);
    intros c H; in_calls H ltac:(fun H => subst c; exact I).
Qed.

(** X17: [start] never closes a server and never touches the loader or
    the persistence manager; it makes at most one server.  A server that
    was running when [start] is called again is left running. *)
Theorem start_makes_one_server_and_closes_none (st : method_state W) :
  let r := start_of st in
  (forall c, c ∈ sys_calls (events r) ->
     match c with
     | close _ | UDELoader_load _ | instance_start _ | new_this
     | addAlias _ _ | create _ => False
     | _ => True
     end)
  /\ length (servers_made (events r)) <= 1.
Proof.
  intros r. subst r.
  pose proof (bootstrap_calls st) as [Hb Hbs].
  pose proof (options_calls (this st) (state_after (bootstrap_of st))) as [Ho Hos].
  destruct (start_cases st)
    as [(e & _ & ->) | [(e & _ & _ & ->) | (o & _ & _ & ->)]];
    cbn [after events completed state_after fst snd].
  - rewrite Hbs. split; [| apply le_S, le_n].
    intros c H. apply Hb in H. by destruct c.
  - rewrite servers_made_app, Hbs, Hos. split; [| apply le_S, le_n].
    intros c H. rewrite sys_calls_app in H.
    apply elem_of_app in H as [H | H]; [apply Hb in H | apply Ho in H];
      by destruct c.
  - pose proof (serve_calls (this st) o
                  (state_after (server_options exec path ONCE_scenario (this st)
                                  (state_after (bootstrap_of st)))))
      as [Hs Hss].
    rewrite !servers_made_app, Hbs, Hos. split; [| exact Hss].
    intros c H. rewrite !sys_calls_app in H.
    apply elem_of_app in H as [H | H];
      [apply elem_of_app in H as [H | H]; [apply Hb in H | apply Ho in H]
      | apply Hs in H];
      by destruct c.
Qed.

Local Abbreviation announce :=
  (console_log "ONCE STARTED AS NODE_JS WITH EXTERNAL MODULE").

Local Abbreviation setup srv :=
  [Did (route srv "GET" "/ior*" ior_handler) (Normal tt);
   Did (route srv "GET" "/UDE/*" handleUDE_CRUD) (Normal tt);
   Did (route srv "PUT" "/UDE/*" handleUDE_CRUD) (Normal tt);
   Did (route srv "POST" "/UDE/*" handleUDE_CRUD) (Normal tt);
   Did (route srv "POST" "/UDE" handleUDE_CRUD) (Normal tt);
   Did (route srv "DELETE" "/UDE/*" handleUDE_CRUD) (Normal tt);
   Did (register_static srv (web_root_static path ONCE_scenario)) (Normal tt);
   Did (register_static srv (components_static path ONCE_scenario)) (Normal tt)].

Local Abbreviation serving me srv :=
  (mkWebserver (port me) (model_protocol me) (scenarioDirectory me) (Some srv)).

(** How [serve] ends. *)
Lemma serve_shapes (me : webserver) (o : fastify_options) (st : method_state W) :
  let r := serve exec path ONCE_scenario me o st in
  (exists srv lr,
      completed r = Normal tt
      /\ events r = (Did (fastify o) (Normal srv) :: setup srv ++ lr
                       ++ [Did announce (Normal tt)])%list
      /\ (lr = [Did (listen srv (port me)) (Normal tt)]
          \/ exists e, lr = [Did (listen srv (port me)) (Abrupt e);
                             Did (console_error e) (Normal tt)])
      /\ this (state_after r) = serving (this st) srv)
  \/ (exists e c,
         completed r = Abrupt e
         /\ last (trace (events r)) = Some (c, Some e)
         /\ (forall srv p, c <> listen srv p)
         /\ (this (state_after r) = this st
             \/ (c = announce
                 /\ exists srv, servers_made (events r) = [srv]
                                /\ this (state_after r) = serving (this st) srv))).
Proof.
  intros r. assert (Hr : r = serve exec path ONCE_scenario me o st) by reflexivity.
  clearbody r. revert Hr. run_serve; intros ->;
    cbn [after events completed state_after fst snd app this last trace
         servers_made].
  all: lazymatch goal with
       | |- context [Some (?c, Some ?e)] =>
           right; exists e, c; split; [reflexivity |]; split; [reflexivity |];
           split; [intros srv p; discriminate |];
           first [left; reflexivity
                 | right; split; [reflexivity |]; eexists; split; reflexivity]
       | |- context [Did (listen ?x ?p) (Abrupt ?e)] =>
           left; exists x, [Did (listen x p) (Abrupt e);
                            Did (console_error e) (Normal tt)];
           split; [reflexivity |]; split; [reflexivity |];
           split; [right; exists e; reflexivity | reflexivity]
       | |- context [Did (listen ?x ?p) (Normal tt)] =>
           left; exists x, [Did (listen x p) (Normal tt)];
           split; [reflexivity |]; split; [reflexivity |];
           split; [left; reflexivity | reflexivity]
       end.
Qed.


Local Abbreviation options_of st :=
  (server_options exec path ONCE_scenario (this st) (state_after (bootstrap_of st))).

(** What follows the key pair in a run of [start]. *)
Lemma start_after_bootstrap (st : method_state W) :
  exists tail,
    events (start_of st) = (events (bootstrap_of st) ++ tail)%list
    /\ (forall c, c ∈ sys_calls tail ->
          match c with
          | readFileSync _ | fastify _ | route _ _ _ _ | register_static _ _
          | listen _ _ | console_error _ | console_log _ => True
          | _ => False
          end).
Proof.
  pose proof (options_calls (this st) (state_after (bootstrap_of st))) as [Ho _].
  destruct (start_cases st)
    as [(e & _ & ->) | [(e & _ & _ & ->) | (o & _ & _ & ->)]];
    cbn [after events completed state_after fst snd].
  - exists []. split; [by rewrite app_nil_r |].
    intros c H. by apply elem_of_nil in H.
  - eexists. split; [reflexivity |].
    intros c H. apply Ho in H. by destruct c.
  - pose proof (serve_calls (this st) o (state_after (options_of st))) as [Hs _].
    eexists. split; [by rewrite <- app_assoc |].
    intros c H. rewrite sys_calls_app in H.
    apply elem_of_app in H as [H | H]; [apply Ho in H | apply Hs in H];
      by destruct c.
Qed.

(** X18: [start] looks for the key, never for the certificate, and only
    in the scenario named [localhost].  It generates a key pair only when
    that look-up said the key file is missing, after it has made the
    directory of the key; the pair goes to the key and certificate paths
    of the component, with [entrust] off. *)
Theorem start_generates_keys_only_when_the_local_key_is_missing
    (st : method_state W) :
  let r := start_of st in
  (forall p, existsSync p ∈ sys_calls (events r) ->
     p = key_of st /\ scenario_name ONCE_scenario = "localhost")
  /\ (forall k c en, keygen k c en ∈ sys_calls (events r) ->
        k = key_of st /\ c = cert_of st /\ en = false
        /\ exists rk rest,
            events r = (Did (existsSync (key_of st)) (Normal false)
                        :: Did (mkdirp (dirname path (key_of st))) (Normal tt)
                        :: Did (keygen (key_of st) (cert_of st) false) rk
                        :: rest)).
Proof.
  intros r. subst r.
  destruct (start_after_bootstrap st) as (tail & -> & Htail).
  split.
  - intros p H. rewrite sys_calls_app in H.
    apply elem_of_app in H as [H | H]; [| by apply Htail in H].
    destruct (bootstrap_shapes st)
      as [_ [(_ & Hev & _) | (Hloc & [(e & Hev & _) | [(Hev & _)
          | [(e & Hev & _) | (rk & Hev & _)]]])]];
      rewrite Hev in H; try apply String.eqb_eq in Hloc; try destruct rk;
      in_calls H ltac:(fun H => first [discriminate H
                                      | injection H as ->; by split]).
  - intros k c en H. rewrite sys_calls_app in H.
    apply elem_of_app in H as [H | H]; [| by apply Htail in H].
    destruct (bootstrap_shapes st)
      as [_ [(_ & Hev & _) | (Hloc & [(e & Hev & _) | [(Hev & _)
          | [(e & Hev & _) | (rk & Hev & _)]]])]];
      rewrite Hev in H |- *; try destruct rk;
      in_calls H ltac:(fun H => first [discriminate H
                                      | injection H as -> -> ->;
                                        repeat split; eexists _, _; reflexivity]).
Qed.

(** X19: the options [start] gives the server follow the protocol of the
    model.  For [https] they hold what was read from the key file and
    from the certificate file, with HTTP/1 allowed and HTTP/2 on; for any
    other protocol they hold the logger only and no file is read. *)
Theorem start_serves_https_from_the_files_it_read
    (st : method_state W) (o : fastify_options) :
  let r := start_of st in
  fastify o ∈ sys_calls (events r) ->
  if String.eqb (model_protocol (this st)) "https" then
    exists k c,
      o = mkOptions true (Some (mkHttps true k c)) (Some true)
      /\ Did (readFileSync (key_of st)) (Normal k) ∈ events r
      /\ Did (readFileSync (cert_of st)) (Normal c) ∈ events r
  else
    o = mkOptions true None None
    /\ forall p, readFileSync p ∉ sys_calls (events r).
Proof.
  intros r. subst r.
  pose proof (bootstrap_calls st) as [Hb _].
  pose proof (options_calls (this st) (state_after (bootstrap_of st))) as [Ho _].
  destruct (start_cases st)
    as [(e & _ & ->) | [(e & _ & _ & ->) | (o' & _ & Hco & ->)]];
    cbn [after events completed state_after fst snd]; intros H.
  - by apply Hb in H.
  - rewrite sys_calls_app in H.
    apply elem_of_app in H as [H | H]; [by apply Hb in H | by apply Ho in H].
  - pose proof (serve_calls (this st) o' (state_after (options_of st))) as [Hs _].
    rewrite !sys_calls_app in H.
    apply elem_of_app in H as [H | H];
      [apply elem_of_app in H as [H | H]; [by apply Hb in H | by apply Ho in H] |].
    apply Hs in H. subst o'.
    destruct (options_shapes (this st) (state_after (bootstrap_of st)))
      as [_ [(Hp & Hev & Hc) | (Hp & [(e & Hev & Hc) | [(k & e & Hev & Hc)
          | (k & c & Hev & Hc)]])]];
      rewrite Hp; rewrite Hc in Hco; try discriminate Hco;
      injection Hco as <-.
    + split; [reflexivity |].
      intros p Hin. rewrite !sys_calls_app in Hin.
      apply elem_of_app in Hin as [Hin | Hin];
        [apply elem_of_app in Hin as [Hin | Hin] |].
      * by apply Hb in Hin.
      * rewrite Hev in Hin. by apply elem_of_nil in Hin.
      * by apply Hs in Hin.
    + exists k, c. split; [reflexivity |]. rewrite Hev.
      split; apply elem_of_app; left; apply elem_of_app; right.
      * apply list_elem_of_here.
      * apply list_elem_of_further, list_elem_of_here.
Qed.

(** X20: a [start] that completes has made one server, asked it for the
    six routes and the two static directories in the order of the source,
    asked it to listen on the port of the model, set [_server] to it and
    then announced itself.  It completes also when [listen] throws: the
    failure is written to the console, the server that does not listen is
    kept in [_server] and the announcement is made all the same. *)
Theorem start_completes_with_the_server_set (st : method_state W) :
  let r := start_of st in
  completed r = Normal tt ->
  exists pre o srv lr,
    events r = (pre ++ Did (fastify o) (Normal srv) :: setup srv ++ lr
                  ++ [Did announce (Normal tt)])%list
    /\ (forall c, c ∈ sys_calls pre ->
          match c with
          | existsSync _ | mkdirp _ | keygen _ _ _ | readFileSync _ => True
          | _ => False
          end)
    /\ (lr = [Did (listen srv (port (this st))) (Normal tt)]
        \/ exists e, lr = [Did (listen srv (port (this st))) (Abrupt e);
                           Did (console_error e) (Normal tt)])
    /\ this (state_after r) = serving (this st) srv.
Proof.
  intros r. subst r.
  pose proof (bootstrap_calls st) as [Hb _].
  pose proof (options_calls (this st) (state_after (bootstrap_of st))) as [Ho _].
  destruct (bootstrap_shapes st) as [Hthis1 _].
  destruct (options_shapes (this st) (state_after (bootstrap_of st))) as [Hthis2 _].
  destruct (start_cases st)
    as [(e & _ & ->) | [(e & _ & _ & ->) | (o & _ & _ & ->)]];
    cbn [after events completed state_after fst snd]; try discriminate.
  intros Hc.
  destruct (serve_shapes (this st) o (state_after (options_of st)))
    as [(srv & lr & _ & Hev & Hlr & Hst) | (e & c & Hc' & _)];
    [| rewrite Hc' in Hc; discriminate Hc].
  exists (events (bootstrap_of st) ++ events (options_of st))%list, o, srv, lr.
  rewrite Hev, Hst, Hthis2, Hthis1.
  split; [reflexivity |]. split; [| split; [exact Hlr | reflexivity]].
  intros c H. rewrite sys_calls_app in H.
  apply elem_of_app in H as [H | H]; [apply Hb in H | apply Ho in H];
    by destruct c.
Qed.

Lemma last_trace_after (pre l : list event) (x : sys * option thrown) :
  last (trace l) = Some x -> last (trace (pre ++ l)) = Some x.
Proof. intros H. rewrite trace_app, last_app, H. reflexivity. Qed.

(** X21: a [start] that fails, fails with the failure of the last call it
    made, unchanged, and that call is never [listen].  The component is
    as it was, but for one case: when the announcement on the console is
    what failed, [_server] already holds the server that was made. *)
Theorem start_fails_with_its_last_call (st : method_state W) (e : thrown) :
  let r := start_of st in
  completed r = Abrupt e ->
  exists c,
    last (trace (events r)) = Some (c, Some e)
    /\ (forall srv p, c <> listen srv p)
    /\ (this (state_after r) = this st
        \/ (c = announce
            /\ exists srv, servers_made (events r) = [srv]
                           /\ this (state_after r) = serving (this st) srv)).
Proof.
  intros r. subst r.
  pose proof (bootstrap_calls st) as [_ Hbs].
  pose proof (options_calls (this st) (state_after (bootstrap_of st))) as [_ Hos].
  destruct (bootstrap_shapes st) as [Hthis1 Hb].
  destruct (options_shapes (this st) (state_after (bootstrap_of st)))
    as [Hthis2 Ho].
  destruct (start_cases st)
    as [(e0 & Hc0 & ->) | [(e0 & _ & Hc0 & ->) | (o & _ & _ & ->)]];
    cbn [after events completed state_after fst snd].
  - intros [= ->].
    destruct Hb as [(_ & _ & Hc) | (_ & [(e1 & Hev & Hc) | [(_ & Hc)
        | [(e1 & Hev & Hc) | (rk & Hev & Hc)]]])];
      rewrite Hc in Hc0; clear Hc; try discriminate Hc0;
      [injection Hc0 as -> | injection Hc0 as -> | subst rk];
      rewrite Hev;
      eexists; (split; [reflexivity |]);
      (split; [intros srv p; discriminate | left; exact Hthis1]).
  - intros [= ->].
    destruct Ho as [(_ & _ & Hc) | (_ & [(e1 & Hev & Hc) | [(k & e1 & Hev & Hc)
        | (k & c & _ & Hc)]])];
      rewrite Hc in Hc0; try discriminate Hc0; injection Hc0 as ->;
      rewrite Hev; eexists;
      (split; [apply last_trace_after; reflexivity |]);
      (split; [intros srv p; discriminate | left; by rewrite Hthis2]).
  - intros Hc.
    destruct (serve_shapes (this st) o (state_after (options_of st)))
      as [(srv & lr & Hc' & _) | (e1 & c & Hc' & Hlast & Hnl & Hst)];
      rewrite Hc' in Hc; [discriminate Hc | injection Hc as ->].
    exists c. split; [by apply last_trace_after |]. split; [exact Hnl |].
    rewrite Hthis2, Hthis1 in Hst.
    destruct Hst as [Hst | (-> & srv & Hmade & Hst)]; [left; exact Hst |].
    right. split; [reflexivity |]. exists srv.
    rewrite !servers_made_app, Hbs, Hos, Hmade. split; [reflexivity | exact Hst].
Qed.

Local Abbreviation six_routes :=
  [("GET", "/ior*", ior_handler);
   ("GET", "/UDE/*", handleUDE_CRUD);
   ("PUT", "/UDE/*", handleUDE_CRUD);
   ("POST", "/UDE/*", handleUDE_CRUD);
   ("POST", "/UDE", handleUDE_CRUD);
   ("DELETE", "/UDE/*", handleUDE_CRUD)].




End StartFacts.

(** ** What is routed is handled *)

Section Routed.

Import Startup.

Context {W H : Type}.
Variable exec : forall c : sys, W -> completion (sys_result c) * W.
Variable path : path_module.
Variable ONCE_scenario : scenario.
Variable serve_request : forall c : call, H -> result (result_of c) * H.


End Routed.

(** ** [stop] *)

Section StopFacts.

Import Startup.

Context {W : Type}.
Variable exec : forall c : sys, W -> completion (sys_result c) * W.
Variable path : path_module.
Variable ONCE_scenario : scenario.

Lemma stop_unfold (st : method_state W) :
  stop exec st =
    match _server (this st) with
    | None => ([], Abrupt TypeError, st)
    | Some srv =>
        match exec (close srv) (world st) with
        | (Normal _, w1) =>
            ([Did (close srv) (Normal tt)], Normal true, mkState (this st) w1)
        | (Abrupt e, w1) =>
            ([Did (close srv) (Abrupt e)], Abrupt e, mkState (this st) w1)
        end
    end.
Proof.
  unfold stop. rewrite mbind_get_this.
  destruct (_server (this st)) as [srv |]; [| reflexivity].
  rewrite (mbind_perform (exec_in_method exec)), exec_in_method_eq.
  destruct (exec (close srv) (world st)) as [[[] | e] w1]; reflexivity.
Qed.

(** X24: [stop] on a component whose [_server] was never set makes no
    call: it fails with a [TypeError] and leaves everything as it was. *)
Theorem stop_before_start_is_a_type_error (st : method_state W) :
  _server (this st) = None ->
  stop exec st = ([], Abrupt TypeError, st).
Proof. intros H. rewrite stop_unfold, H. reflexivity. Qed.

(** X25: after a [start] that completed, [stop] closes the server that
    [start] made, and nothing else; when it returns, it returns [true].
    It does not clear [_server]: the component is as [start] left it, so
    a later [stop], in whatever world, closes that same server again. *)
Theorem stop_closes_the_started_server_and_keeps_it (st : method_state W) :
  let r := start exec path ONCE_scenario st in
  completed r = Normal tt ->
  exists srv,
    servers_made (events r) = [srv]
    /\ forall later,
         this later = this (state_after r) ->
         sys_calls (events (stop exec later)) = [close srv]
         /\ this (state_after (stop exec later)) = this (state_after r)
         /\ (forall b, completed (stop exec later) = Normal b -> b = true).
Proof.
  intros r. subst r.
  pose proof (bootstrap_calls exec path ONCE_scenario st) as [_ Hbs].
  pose proof (options_calls exec path ONCE_scenario (this st)
                (state_after (tls_bootstrap exec path ONCE_scenario (this st) st)))
    as [_ Hos].
  destruct (start_cases exec path ONCE_scenario st)
    as [(e & _ & ->) | [(e & _ & _ & ->) | (o & _ & _ & ->)]];
    cbn [after events completed state_after fst snd]; try discriminate.
  intros Hc.
  destruct (serve_shapes exec path ONCE_scenario (this st) o
              (state_after
                 (server_options exec path ONCE_scenario (this st)
                    (state_after
                       (tls_bootstrap exec path ONCE_scenario (this st) st)))))
    as [(srv & lr & _ & Hev & Hlr & Hst) | (e & c & Hc' & _)];
    [| rewrite Hc' in Hc; discriminate Hc].
  exists srv. rewrite !servers_made_app, Hbs, Hos, Hev, Hst. split.
  { destruct Hlr as [-> | (e & ->)]; reflexivity. }
  intros later Hlater. rewrite stop_unfold, Hlater. cbn [_server].
  destruct (exec (close srv) (world later)) as [[[] | e] w1];
    cbn [events completed state_after fst snd sys_calls trace map this];
    (split; [reflexivity |]); (split; [first [exact Hlater | reflexivity] |]);
    intros b Hb; [by injection Hb | discriminate Hb].
Qed.

End StopFacts.

(** * Examples of the further properties *)

Lemma ude_failures_pass_through_unchanged_witness :
  let req := Reference.post Scenario.untyped_body in
  let r := run Reference.exec (_handleUDE_CRUD req) Reference.w0 in
  outcome_of r = Thrown MalformedPayload
  /\ thrown_by (log_of r) = Some MalformedPayload.
Proof.
  intros req r. split; [reflexivity |].
  destruct (ude_failures_pass_through_unchanged
              Reference.exec Reference.w0 req MalformedPayload eq_refl)
    as [H | (H & _)]; [exact H | discriminate H].
Defined.

Lemma create_ignores_the_url_witness :
  let req1 := Reference.post Scenario.first_body in
  let req2 := mkRequest "POST" "/UDE/somewhere/else" ∅ (Some Scenario.first_body) in
  method req1 = "POST" /\ method req2 = "POST" /\ body req1 = body req2
  /\ run Reference.exec (_handleUDE_CRUD req1) Reference.w0
     = run Reference.exec (_handleUDE_CRUD req2) Reference.w0.
Proof.
  intros req1 req2. repeat (split; [reflexivity |]).
  apply (create_ignores_the_url Reference.exec Reference.w0 req1 req2);
    reflexivity.
Defined.

Lemma delete_acknowledges_after_delete_witness :
  let req := mkRequest "DELETE" "/UDE/a" ∅ None in
  let r := run Reference.exec (_handleUDE_CRUD req) Scenario.w_created in
  method req = "DELETE"
  /\ outcome_of r = Returned DeleteOk
  /\ (forall c, c ∈ calls_of (log_of r) ->
        match c with
        | IOR_init _ | IOR_load _ | PM_delete _ => True
        | _ => False
        end).
Proof.
  intros req r. split; [reflexivity |]. split; [reflexivity |].
  destruct (delete_acknowledges_after_delete
              Reference.exec Scenario.w_created req eq_refl) as [Hcalls _].
  exact Hcalls.
Defined.

Lemma read_only_reads_witness :
  let req := Reference.plain_get "/UDE/a" in
  let r := run Reference.exec (_handleUDE_CRUD req) Scenario.w_created in
  method req = "GET"
  /\ calls_of (log_of r)
     = [IOR_init "/UDE/a"; IOR_load (mkIOR [ude] "a"); PM_ucpComponentData 0]
  /\ (forall c, c ∈ calls_of (log_of r) ->
        match c with
        | IOR_init _ | IOR_load _ | PM_ucpComponentData _ => True
        | _ => False
        end).
Proof.
  intros req r. split; [reflexivity |]. split; [reflexivity |].
  destruct (read_only_reads Reference.exec Scenario.w_created req eq_refl)
    as [Hcalls _].
  exact Hcalls.
Defined.

Lemma create_that_returns_has_run_in_order_witness :
  let req := Reference.post Scenario.first_body in
  let r := run Reference.exec (_handleUDE_CRUD req) Reference.w0 in
  let p := Snapshot (mkUDE Reference.Thing
                       (JObject [("foo", JNumber 1); ("bar", JNumber 2)])
                       (Some "X") (Some ["a"])) in
  method req = "POST"
  /\ outcome_of r = Returned p
  /\ exists udeData cls c data,
       log_of r =
         ([Replied (reply_header "Content-Type" "application/json; charset=utf-8");
           Called (validateUDEStructure (body req)) (Ok udeData);
           Called (DefaultIOR_load (typeIOR udeData)) (Ok cls);
           Called (new_component cls) (Ok c);
           Called (set_model c (particle_data udeData)) (Ok tt);
           Called (set_IOR_id c (id udeData)) (Ok tt)]
          ++ map (fun a => Called (PM_addAlias c a) (Ok tt))
                 (default [] (alias udeData))
          ++ [Called (PM_create c) (Ok tt);
              Called (PM_ucpComponentData c) (Ok data)])%list
       /\ p = Snapshot data.
Proof.
  intros req r p. split; [reflexivity |]. split; [reflexivity |].
  apply (create_that_returns_has_run_in_order
           Reference.exec Reference.w0 req p); reflexivity.
Defined.

Lemma update_validates_before_resolving_witness :
  let req := Reference.put "/UDE/a" Scenario.untyped_body in
  method req = "PUT"
  /\ Reference.exec (validateUDEStructure (body req)) Scenario.w_created
     = (Err MalformedPayload, Scenario.w_created)
  /\ run Reference.exec (_handleUDE_CRUD req) Scenario.w_created =
       ([Replied (reply_header "Content-Type" "application/json; charset=utf-8");
         Called (validateUDEStructure (body req)) (Err MalformedPayload)],
        Thrown MalformedPayload, Scenario.w_created).
Proof.
  intros req. split; [reflexivity |]. split; [reflexivity |].
  apply (update_validates_before_resolving
           Reference.exec Scenario.w_created Scenario.w_created req
           MalformedPayload);
    reflexivity.
Defined.

Lemma ior_redirect_outside_the_web_root_witness :
  let req := Reference.script_get "/ior:esm:/tla.EAM.Once[dev]" in
  path_resolve (cwd Reference.ONCE) (webRoot Reference.ONCE)
  = (["var"; "EAMD.ucp"] ++ "Scenarios" :: ["localhost"])%list
  /\ path_resolve (cwd Reference.ONCE) "/var/EAMD.ucp/Components/Once/index.mjs"
     = (["var"; "EAMD.ucp"] ++ ["Components"; "Once"; "index.mjs"])%list
  /\ exists target,
       redirects (log_of (run Reference.exec (handle_ior Reference.ONCE req) w_beside))
       = [target]
       /\ target = "/../../Components/Once/index.mjs"
       /\ startsWith target "/.." = true.
Proof.
  intros req. split; [reflexivity |]. split; [reflexivity |].
  apply (ior_redirect_outside_the_web_root Reference.exec Reference.ONCE
           w_beside w_beside w_beside req
           (mkIOR [ior; esm] "/tla.EAM.Once[dev]")
           "/var/EAMD.ucp/Components/Once/index.mjs"
           ["var"; "EAMD.ucp"] ["localhost"] ["Components"; "Once"; "index.mjs"]
           "Scenarios");
    first [reflexivity | discriminate].
Defined.

Section StartupExamples.

Import Startup Machine.

Local Abbreviation static_start_on m name :=
  (static_start exec className instanceof_this name m).

Local Abbreviation start_on sc m :=
  (start exec slashes sc (mkState component m)).

Lemma static_start_returns_a_started_server_witness :
  let n := "DefaultOnceWebserverInstance" in
  let r := static_start_on empty None in
  completed r = Normal 1
  /\ ((instanceof_this 1 = true
       /\ events r = [Did (UDELoader_load n) (Normal 1);
                      Did (instance_start 1) (Normal tt)])
      \/ (exists pre,
             fell_through instanceof_this n pre
             /\ events r = (pre ++ [Did new_this (Normal 1);
                                    Did (addAlias 1 n) (Normal tt);
                                    Did (create 1) (Normal tt);
                                    Did (instance_start 1) (Normal tt)])%list)).
Proof.
  intros n r. split; [reflexivity |].
  apply (static_start_returns_a_started_server
           exec className instanceof_this None empty 1).
  reflexivity.
Defined.

Lemma static_start_goes_on_only_after_no_file_found_witness :
  let n := "DefaultOnceWebserverInstance" in
  let r := static_start_on empty None in
  let e := JsError "No file Found" in
  trace (events r) !! 0 = Some (UDELoader_load n, Some e)
  /\ 1 < length (trace (events r))
  /\ no_file_found e = true
  /\ fst <$> trace (events r) !! 1 = Some new_this.
Proof.
  intros n r e. split; [reflexivity |]. split; [cbn; lia |].
  destruct (static_start_goes_on_only_after_no_file_found
              exec className instanceof_this None empty 0
              (UDELoader_load n) e eq_refl)
    as (Hnff & _ & Hnext); [cbn; lia |].
  split; [exact Hnff | exact Hnext].
Defined.

Lemma static_start_reuses_the_saved_server_witness :
  let n := "DefaultOnceWebserverInstance" in
  exec (UDELoader_load n) with_saved_server = (Normal 7, with_saved_server)
  /\ instanceof_this 7 = true
  /\ static_start_on with_saved_server None =
       ([Did (UDELoader_load n) (Normal 7); Did (instance_start 7) (Normal tt)],
        Normal 7, with_saved_server).
Proof.
  intros n. split; [reflexivity |]. split; [reflexivity |].
  apply (static_start_reuses_the_saved_server
           exec className instanceof_this None
           with_saved_server with_saved_server with_saved_server 7);
    reflexivity.
Defined.

Lemma static_start_replaces_a_foreign_object_witness :
  let n := "DefaultOnceWebserverInstance" in
  let r := static_start_on with_saved_stranger None in
  exec (UDELoader_load n) with_saved_stranger = (Normal 0, with_saved_stranger)
  /\ instanceof_this 0 = false
  /\ completed r = Normal 1
  /\ (forall s a, addAlias s a ∈ sys_calls (events r) -> a = n)
  /\ (forall s, completed r = Normal s -> Did new_this (Normal s) ∈ events r).
Proof.
  intros n r. split; [reflexivity |]. split; [reflexivity |].
  split; [reflexivity |].
  destruct (static_start_replaces_a_foreign_object
              exec className instanceof_this None
              with_saved_stranger with_saved_stranger 0 eq_refl eq_refl)
    as (_ & _ & Halias & Hnew).
  split; [exact Halias | exact Hnew].
Defined.

Lemma start_serves_https_from_the_files_it_read_witness :
  let r := start_on localhost empty in
  let o := mkOptions true
             (Some (mkHttps true "generated key" "generated certificate"))
             (Some true) in
  let key := "/var/EAMD.ucp/Scenarios/localhost/tla/EAM/OnceWebserver/tls/key.pem" in
  let cert := "/var/EAMD.ucp/Scenarios/localhost/tla/EAM/OnceWebserver/tls/cert.pem" in
  fastify o ∈ sys_calls (events r)
  /\ exists k c,
       o = mkOptions true (Some (mkHttps true k c)) (Some true)
       /\ Did (readFileSync key) (Normal k) ∈ events r
       /\ Did (readFileSync cert) (Normal c) ∈ events r.
Proof.
  intros r o key cert.
  assert (H : fastify o ∈ sys_calls (events r)).
  { vm_compute. repeat first [apply list_elem_of_here | apply list_elem_of_further]. }
  split; [exact H |].
  exact (start_serves_https_from_the_files_it_read
           exec slashes localhost (mkState component empty) o H).
Defined.

Lemma start_completes_with_the_server_set_witness :
  let r := start_on localhost (mkMachine [] [] [3000%Z] 1) in
  completed r = Normal tt
  /\ _server (this (state_after r)) = Some 1
  /\ exists pre o srv lr,
       events r = (pre ++ Did (fastify o) (Normal srv)
                     :: [Did (route srv "GET" "/ior*" ior_handler) (Normal tt);
                         Did (route srv "GET" "/UDE/*" handleUDE_CRUD) (Normal tt);
                         Did (route srv "PUT" "/UDE/*" handleUDE_CRUD) (Normal tt);
                         Did (route srv "POST" "/UDE/*" handleUDE_CRUD) (Normal tt);
                         Did (route srv "POST" "/UDE" handleUDE_CRUD) (Normal tt);
                         Did (route srv "DELETE" "/UDE/*" handleUDE_CRUD) (Normal tt);
                         Did (register_static srv (web_root_static slashes localhost))
                             (Normal tt);
                         Did (register_static srv (components_static slashes localhost))
                             (Normal tt)]
                     ++ lr
                     ++ [Did (console_log "ONCE STARTED AS NODE_JS WITH EXTERNAL MODULE")
                             (Normal tt)])%list
       /\ (forall c, c ∈ sys_calls pre ->
             match c with
             | existsSync _ | mkdirp _ | keygen _ _ _ | readFileSync _ => True
             | _ => False
             end)
       /\ (lr = [Did (listen srv 3000) (Normal tt)]
           \/ exists e, lr = [Did (listen srv 3000) (Abrupt e);
                              Did (console_error e) (Normal tt)])
       /\ this (state_after r) = mkWebserver 3000 "https" "tla/EAM/OnceWebserver" (Some srv).
Proof.
  intros r. split; [reflexivity |]. split; [reflexivity |].
  apply (start_completes_with_the_server_set
           exec slashes localhost (mkState component (mkMachine [] [] [3000%Z] 1))).
  reflexivity.
Defined.

Lemma start_fails_with_its_last_call_witness :
  let r := start_on production empty in
  let e := JsError "ENOENT: no such file or directory" in
  completed r = Abrupt e
  /\ exists c,
       last (trace (events r)) = Some (c, Some e)
       /\ (forall srv p, c <> listen srv p)
       /\ (this (state_after r) = component
           \/ (c = console_log "ONCE STARTED AS NODE_JS WITH EXTERNAL MODULE"
               /\ exists srv,
                   servers_made (events r) = [srv]
                   /\ this (state_after r)
                      = mkWebserver 3000 "https" "tla/EAM/OnceWebserver" (Some srv))).
Proof.
  intros r e. split; [reflexivity |].
  apply (start_fails_with_its_last_call
           exec slashes production (mkState component empty) e).
  reflexivity.
Defined.


Lemma stop_before_start_is_a_type_error_witness :
  _server (this (mkState component empty)) = None
  /\ stop exec (mkState component empty)
     = ([], Abrupt TypeError, mkState component empty).
Proof.
  split; [reflexivity |].
  apply (stop_before_start_is_a_type_error exec (mkState component empty)).
  reflexivity.
Defined.

Lemma stop_closes_the_started_server_and_keeps_it_witness :
  let r := start_on localhost empty in
  completed r = Normal tt
  /\ exists srv,
       servers_made (events r) = [srv]
       /\ forall later,
            this later = this (state_after r) ->
            sys_calls (events (stop exec later)) = [close srv]
            /\ this (state_after (stop exec later)) = this (state_after r)
            /\ (forall b, completed (stop exec later) = Normal b -> b = true).
Proof.
  intros r. split; [reflexivity |].
  apply (stop_closes_the_started_server_and_keeps_it
           exec slashes localhost (mkState component empty)).
  reflexivity.
Defined.

End StartupExamples.
